(** * Frontier search of [explore/src/frontier_search.cpp]

    A shallow embedding of [frontier_exploration::FrontierSearch]: the outward
    breadth-first classification of [searchFrom], the region builder
    [buildNewFrontier], the cell predicate [isNewFrontierCell] and the cost
    model [frontierCost], followed by the properties of the natural-language
    specification that were checked against them.

    Conventions.
    - A C++ [double] is a primitive binary64 float; every arithmetic
      operation, comparison and square root below is the IEEE operation the
      source performs, in the source's order of evaluation.
    - [unsigned int] cell indices are [nat]; the source does no arithmetic on
      them, it only passes them to the costmap and indexes arrays with them.
      The product [size_x_ * size_y_] is taken in [nat]: a costmap has fewer
      cells than an [unsigned int] can count.
    - [std::vector<bool>] flag arrays and the [unsigned char] cost array are
      lists read with [!!] and written with [<[ _ := _ ]>].  The source
      indexes them without a bounds check; the neighbourhood functions only
      return cells of the grid, so that the out-of-range branches written out
      below (a read that finds nothing refuses the cell, a write does nothing)
      are not taken on the executions of the source.
    - [static] variables, the random device and the ROS console are threaded
      explicitly through a [Process] record.
    - The mutex that [searchFrom] holds over the costmap has no counterpart:
      the costmap is a value, it cannot change during a call.
    - Loops take fuel; each is run with an amount that is proved to empty
      its queue ([build_run_done], [search_run_done]). *)

From Stdlib Require Import Floats ZArith Lia Sorted.
From Stdlib Require Uint63.
From stdpp Require Import base list strings.

Set Default Proof Using "Type".
Set Warnings "-inexact-float".

(** ** Collaborators *)

(** [costmap_2d/cost_values.h] *)
Definition NO_INFORMATION : Z := 255.
Definition LETHAL_OBSTACLE : Z := 254.
Definition FREE_SPACE : Z := 0.

(** [geometry_msgs::Point]; its constructor zero-initialises the members. *)
Module geometry_msgs.
Record Point := mkPoint { x : float; y : float; z : float }.
Definition Point_default : Point := mkPoint 0 0 0.
End geometry_msgs.
Abbreviation Point := geometry_msgs.Point.

(** The part of [costmap_2d::Costmap2D] that the search uses.
    [worldToMap] answers [None] where the C++ method returns [false]. *)
Record Costmap2D := mkCostmap2D {
  getCharMap : list Z;
  getSizeInCellsX : nat;
  getSizeInCellsY : nat;
  getResolution : float;
  worldToMap : float → float → option (nat * nat);
  getIndex : nat → nat → nat;
  indexToCells : nat → nat * nat;
  mapToWorld : nat → nat → float * float
}.

(** The ROS console. *)
Inductive Diagnostic :=
  | ROS_ERROR (msg : string)
  | ROS_WARN (msg : string)
  | ROS_INFO (fmt : string) (args : list float).

(** ** Data model *)

(** Modelled from the spec: [struct Frontier], declared in
    [explore/frontier_search.h].  The fields are those the source assigns;
    [size] is the count of member cells, a natural number that the source
    only ever increments, once per cell of the grid at most. *)
Record Frontier := mkFrontier {
  size : nat;
  min_distance : float;
  cost : float;
  initial : Point;
  centroid : Point;
  middle : Point;
  points : list Point
}.

(** The object itself: the members set by the constructor. *)
Record FrontierSearch := mkFrontierSearch {
  costmap_ : Costmap2D;
  potential_scale_ : float;
  gain_scale_ : float;
  min_frontier_size_ : float
}.

(** What outlives a call: the two [static] locals of [frontierCost], the
    number of values already taken from [std::random_device], and the
    console output so far. *)
Record Process := mkProcess {
  weight : float;
  flag : bool;
  rd_taken : nat;
  console : list Diagnostic
}.

(** The state of a freshly started process: [static double weight = 0;
    static bool flag = 0;]. *)
Definition Process_start : Process := mkProcess 0 false 0 [].

(** ** Numeric helpers *)

(** The conversion of the cell counter to [double] in [size * resolution]
    and in [centroid.x /= size]. *)
Definition to_double (n : nat) : float :=
  PrimFloat.of_uint63 (Uint63.of_Z (Z.of_nat n)).

(** [pow(a, 2.0)] as an optimising compiler emits it: the product [a * a],
    correctly rounded.  A call of the library's [pow] that is not folded may
    differ from it in the last place; no result below depends on the last
    place of a distance. *)
Definition pow2 (a : float) : float := (a * a)%float.

(** [sqrt(pow(ax - bx, 2.0) + pow(ay - by, 2.0))], the expression used three
    times in the source. *)
Definition distance (ax ay bx by_ : float) : float :=
  PrimFloat.sqrt (pow2 (ax - bx) + pow2 (ay - by_))%float.

(** ** std::sort

    The algorithm of [std::sort] is left open by the standard; it is
    modelled by insertion with the comparator of the call.  Elements that
    compare equivalent, and elements with a cost that is not a number, come
    out of this model in the reverse of the order of discovery, where an
    implementation may leave them in another order: no result below
    depends on the order among such elements. *)
Section Sort.
Context {A : Type} (comp : A → A → bool).

Fixpoint sort_insert (a : A) (l : list A) : list A :=
  match l with
  | [] => [a]
  | b :: l' => if comp a b then a :: b :: l' else b :: sort_insert a l'
  end.

Definition std_sort (l : list A) : list A := foldr sort_insert [] l.
End Sort.


(** ** Loop states *)

(** The variables of the region loop of [buildNewFrontier].  [cells] is a
    ghost: the indices [nbr] for which a point was appended to
    [output.points], in the order of [push_back]. *)
Module build.
Record state := mk {
  output : Frontier;
  frontier_flag : list bool;
  bfs : list nat;
  cells : list nat
}.
End build.

(** The variables of the outward loop of [searchFrom].  [members] is a
    ghost that runs parallel to [frontier_list]: for each retained region its
    initial cell followed by the cells of its points. *)
Module search.
Record state := mk {
  frontier_list : list Frontier;
  frontier_flag : list bool;
  visited_flag : list bool;
  bfs : list nat;
  members : list (list nat)
}.
End search.

(** The number of entries of a flag array that are still [false]. *)
Definition unset (flags : list bool) : nat :=
  length (filter (λ b, b = false) flags).

(** ** The search *)

Section FrontierSearch.
(** [explore/costmap_tools.h] *)
Variable nhood4 : nat → Costmap2D → list nat.
Variable nhood8 : nat → Costmap2D → list nat.
(** [nearestCell(result, start, val, costmap)]: [Some result] when it
    returns [true]. *)
Variable nearestCell : nat → Z → Costmap2D → option nat.

(** [std::random_device]: [random_device k] is the value of its [k]-th
    evaluation in the process. *)
Variable random_device : nat → Z.
(** [std::normal_distribution<double> distribution(mean, std_dev)] applied
    to a [std::mt19937] constructed from the given seed. *)
Variable normal_distribution : float → float → Z → float.

Variable this : FrontierSearch.

(** [map_ = costmap_->getCharMap()] *)
Definition map_ : list Z := getCharMap (costmap_ this).

(** [indexToCells] followed by [mapToWorld]. *)
Definition cellToWorld (idx : nat) : float * float :=
  let '(mx, my) := indexToCells (costmap_ this) idx in
  mapToWorld (costmap_ this) mx my.

(** A default-constructed point whose [x] and [y] are then assigned. *)
Definition cellPoint (idx : nat) : Point :=
  let '(wx, wy) := cellToWorld idx in geometry_msgs.mkPoint wx wy 0.

(** *** isNewFrontierCell *)
Definition isNewFrontierCell (idx : nat) (frontier_flag : list bool) : bool :=
  match map_ !! idx, frontier_flag !! idx with
  | Some c, Some f =>
      if negb (c =? NO_INFORMATION)%Z || f then false
      else existsb (λ nbr, match map_ !! nbr with
                           | Some v => (v =? FREE_SPACE)%Z
                           | None => false
                           end)
                   (nhood4 idx (costmap_ this))
  | _, _ => false
  end.

(** *** buildNewFrontier *)

(** The body of the [for] over the 8-connected neighbourhood. *)
Definition build_visit (reference_x reference_y : float)
    (st : build.state) (nbr : nat) : build.state :=
  if isNewFrontierCell nbr (build.frontier_flag st) then
    let '(wx, wy) := cellToWorld nbr in
    let o := build.output st in
    let distance := distance reference_x reference_y wx wy in
    let closer := (distance <? min_distance o)%float in
    build.mk
      {| size := S (size o);
         min_distance := if closer then distance else min_distance o;
         cost := cost o;
         initial := initial o;
         centroid :=
           geometry_msgs.mkPoint
             (geometry_msgs.x (centroid o) + wx)%float
             (geometry_msgs.y (centroid o) + wy)%float
             (geometry_msgs.z (centroid o));
         middle :=
           if closer
           then geometry_msgs.mkPoint wx wy (geometry_msgs.z (middle o))
           else middle o;
         points := points o ++ [geometry_msgs.mkPoint wx wy 0] |}
      (<[nbr := true]> (build.frontier_flag st))
      (build.bfs st ++ [nbr])
      (build.cells st ++ [nbr])
  else st.

(** [while (!bfs.empty())], at most [fuel] iterations. *)
Fixpoint build_loop (reference_x reference_y : float)
    (fuel : nat) (st : build.state) : build.state :=
  match fuel with
  | 0 => st
  | S fuel' =>
      match build.bfs st with
      | [] => st
      | idx :: rest =>
          build_loop reference_x reference_y fuel'
            (foldl (build_visit reference_x reference_y)
               (build.mk (build.output st) (build.frontier_flag st) rest
                  (build.cells st))
               (nhood8 idx (costmap_ this)))
      end
  end.

(** The state on entry of the loop.  [cost] is not initialised by the
    source; [searchFrom] assigns it before anything reads it. *)
Definition build_init (initial_cell : nat) (flags : list bool) : build.state :=
  build.mk
    {| size := 1;
       min_distance := infinity;
       cost := 0;
       initial := cellPoint initial_cell;
       centroid := geometry_msgs.mkPoint 0 0 0;
       middle := geometry_msgs.Point_default;
       points := [] |}
    flags [initial_cell] [].

(** The loop run to completion: an iteration pops one cell and a push
    consumes one unset flag, so [1 + unset flags] iterations empty the
    queue. *)
Definition build_run (initial_cell reference : nat) (flags : list bool)
    : build.state :=
  let '(reference_x, reference_y) := cellToWorld reference in
  build_loop reference_x reference_y (S (unset flags))
    (build_init initial_cell flags).

(** [output.centroid.x /= output.size; output.centroid.y /= output.size;] *)
Definition average (o : Frontier) : Frontier :=
  {| size := size o;
     min_distance := min_distance o;
     cost := cost o;
     initial := initial o;
     centroid :=
       geometry_msgs.mkPoint
         (geometry_msgs.x (centroid o) / to_double (size o))%float
         (geometry_msgs.y (centroid o) / to_double (size o))%float
         (geometry_msgs.z (centroid o));
     middle := middle o;
     points := points o |}.

(** The returned [Frontier] and the flag array, which the source passes by
    reference. *)
Definition buildNewFrontier (initial_cell reference : nat)
    (flags : list bool) : Frontier * list bool :=
  let st := build_run initial_cell reference flags in
  (average (build.output st), build.frontier_flag st).

(** *** frontierCost *)

(** The constants of the function. *)
Definition human_x : float := (-2.91756)%float.
Definition human_y : float := (-5.26284)%float.
Definition mean : float := 0%float.
Definition std_dev : float := 0.2%float.

(** The [if]/[else if] on [robot_human] that writes the two statics. *)
Definition bias_update (pose : Point) (robot_human : float) (p : Process)
    : Process :=
  if (robot_human <? 3)%float then
    mkProcess 0 (flag p) (rd_taken p)
      (console p ++
         [ROS_INFO "robot location: %f, %f"
            [geometry_msgs.x pose; geometry_msgs.y pose];
          ROS_INFO "robot_human: %f" [robot_human]])
  else if (robot_human <? 6)%float && negb (flag p) then
    mkProcess 3 true (rd_taken p) (console p)
  else p.

(** The value returned and the process afterwards. *)
Definition frontierCost (frontier : Frontier) (pose : Point) (p : Process)
    : float * Process :=
  let frontier_x := geometry_msgs.x (middle frontier) in
  let frontier_y := geometry_msgs.y (middle frontier) in
  let robot_x := geometry_msgs.x pose in
  let robot_y := geometry_msgs.y pose in
  let frontier_human := distance human_x human_y frontier_x frontier_y in
  let robot_human := distance human_x human_y robot_x robot_y in
  let p1 := bias_update pose robot_human p in
  let noise := normal_distribution mean std_dev (random_device (rd_taken p1)) in
  let p2 := mkProcess (weight p1) (flag p1) (S (rd_taken p1)) (console p1) in
  let frontier_human := (frontier_human + noise)%float in
  ((potential_scale_ this * min_distance frontier
      * getResolution (costmap_ this)
    - gain_scale_ this * to_double (size frontier)
      * getResolution (costmap_ this)
    + weight p2 * frontier_human * getResolution (costmap_ this))%float,
   p2).

(** *** searchFrom *)

(** [frontier.cost = c] *)
Definition set_cost (f : Frontier) (c : float) : Frontier :=
  {| size := size f; min_distance := min_distance f; cost := c;
     initial := initial f; centroid := centroid f; middle := middle f;
     points := points f |}.

(** The body of the [for] over the 4-connected neighbourhood of [idx]. *)
Definition search_visit (pos idx : nat) (st : search.state) (nbr : nat)
    : search.state :=
  let admitted :=
    match map_ !! nbr, map_ !! idx, search.visited_flag st !! nbr with
    | Some vn, Some vi, Some visited => (vn <=? vi)%Z && negb visited
    | _, _, _ => false
    end in
  if admitted then
    search.mk (search.frontier_list st) (search.frontier_flag st)
      (<[nbr := true]> (search.visited_flag st))
      (search.bfs st ++ [nbr]) (search.members st)
  else if isNewFrontierCell nbr (search.frontier_flag st) then
    let flagged := <[nbr := true]> (search.frontier_flag st) in
    let '(new_frontier, frontier_flag) := buildNewFrontier nbr pos flagged in
    let region := nbr :: build.cells (build_run nbr pos flagged) in
    if (min_frontier_size_ this
          <=? to_double (size new_frontier) * getResolution (costmap_ this))%float
    then
      search.mk (search.frontier_list st ++ [new_frontier]) frontier_flag
        (search.visited_flag st) (search.bfs st)
        (search.members st ++ [region])
    else
      search.mk (search.frontier_list st) frontier_flag
        (search.visited_flag st) (search.bfs st) (search.members st)
  else st.

(** [while (!bfs.empty())], at most [fuel] iterations. *)
Fixpoint search_loop (pos : nat) (fuel : nat) (st : search.state)
    : search.state :=
  match fuel with
  | 0 => st
  | S fuel' =>
      match search.bfs st with
      | [] => st
      | idx :: rest =>
          search_loop pos fuel'
            (foldl (search_visit pos idx)
               (search.mk (search.frontier_list st) (search.frontier_flag st)
                  (search.visited_flag st) rest (search.members st))
               (nhood4 idx (costmap_ this)))
      end
  end.

(** [for (auto& frontier : frontier_list) frontier.cost = frontierCost(...)] *)
Fixpoint set_costs (position : Point) (l : list Frontier) (p : Process)
    : list Frontier * Process :=
  match l with
  | [] => ([], p)
  | frontier :: l' =>
      let '(c, p1) := frontierCost frontier position p in
      let '(l'', p2) := set_costs position l' p1 in
      (set_cost frontier c :: l'', p2)
  end.

(** The comparator of the call of [std::sort]. *)
Definition by_cost (f1 f2 : Frontier) : bool := (cost f1 <? cost f2)%float.

(** The cell pushed first, the nearest clear cell or else the cell of the
    robot, and whether the warning is issued. *)
Definition search_start (pos : nat) : nat * bool :=
  match nearestCell pos FREE_SPACE (costmap_ this) with
  | Some clear => (clear, false)
  | None => (pos, true)
  end.

(** The outward loop run to completion from the cell [pos] of the robot:
    an iteration pops one cell and a push consumes one unset flag of
    [visited_flag]. *)
Definition search_run (pos : nat) : search.state :=
  let cm := costmap_ this in
  let n := getSizeInCellsX cm * getSizeInCellsY cm in
  let front := fst (search_start pos) in
  let visited_flag := <[front := true]> (replicate n false) in
  search_loop pos (S (unset visited_flag))
    (search.mk [] (replicate n false) visited_flag [front] []).

Definition searchFrom (position : Point) (p : Process)
    : list Frontier * Process :=
  let cm := costmap_ this in
  match worldToMap cm (geometry_msgs.x position) (geometry_msgs.y position) with
  | None =>
      ([], mkProcess (weight p) (flag p) (rd_taken p)
             (console p ++
                [ROS_ERROR
                   "Robot out of costmap bounds, cannot search for frontiers"]))
  | Some (mx, my) =>
      let pos := getIndex cm mx my in
      let p1 :=
        if snd (search_start pos) then
          mkProcess (weight p) (flag p) (rd_taken p)
            (console p ++
               [ROS_WARN "Could not find nearby clear cell to start search"])
        else p in
      let st := search_run pos in
      let '(frontier_list, p2) := set_costs position (search.frontier_list st) p1 in
      (std_sort by_cost frontier_list, p2)
  end.

(** The returned frontiers, each with the ghost list of its member cells. *)
Definition searchFrom_members (position : Point) (p : Process)
    : list (Frontier * list nat) :=
  let cm := costmap_ this in
  match worldToMap cm (geometry_msgs.x position) (geometry_msgs.y position) with
  | None => []
  | Some (mx, my) =>
      let pos := getIndex cm mx my in
      let p1 :=
        if snd (search_start pos) then
          mkProcess (weight p) (flag p) (rd_taken p)
            (console p ++
               [ROS_WARN "Could not find nearby clear cell to start search"])
        else p in
      let st := search_run pos in
      let '(frontier_list, _) := set_costs position (search.frontier_list st) p1 in
      std_sort (λ a b, by_cost (fst a) (fst b))
        (zip frontier_list (search.members st))
  end.

End FrontierSearch.

(** ** A concrete grid

    The instance of the collaborators on which the functions above are
    evaluated: a [Costmap2D] over a row-major array, as [costmap_2d]
    implements it, and the helpers of [explore/costmap_tools.h]. *)

(** [(unsigned int)] of a non-negative finite [double].  The cast is not
    defined on an infinity or on a value that is not a number; this model
    sends them to 0, so the [worldToMap] of [grid] below is to be used at
    finite coordinates only. *)
Definition truncate (d : float) : nat :=
  match Prim2SF d with
  | S754_finite false m e =>
      Z.to_nat (if (0 <=? e)%Z then Z.pos m * 2 ^ e else Z.pos m / 2 ^ (- e))
  | _ => 0
  end.

Definition grid (size_x size_y : nat) (resolution origin_x origin_y : float)
    (costs : list Z) : Costmap2D :=
  {| getCharMap := costs;
     getSizeInCellsX := size_x;
     getSizeInCellsY := size_y;
     getResolution := resolution;
     worldToMap := λ wx wy,
       if (wx <? origin_x)%float || (wy <? origin_y)%float then None
       else
         let mx := truncate ((wx - origin_x) / resolution)%float in
         let my := truncate ((wy - origin_y) / resolution)%float in
         if (mx <? size_x) && (my <? size_y) then Some (mx, my) else None;
     getIndex := λ mx my, my * size_x + mx;
     indexToCells := λ index, (index - index / size_x * size_x, index / size_x);
     mapToWorld := λ mx my,
       ((origin_x + (to_double mx + 0.5) * resolution)%float,
        (origin_y + (to_double my + 0.5) * resolution)%float) |}.

(** Modelled from the spec: the 4-connected neighbourhood of
    [explore/costmap_tools.h], the edge-adjacent cells of a cell that lie on
    the grid. *)
Definition grid_nhood4 (idx : nat) (costmap : Costmap2D) : list nat :=
  let size_x := getSizeInCellsX costmap in
  let size_y := getSizeInCellsY costmap in
  if size_x * size_y <=? idx then []
  else
    (if 0 <? idx mod size_x then [idx - 1] else []) ++
    (if idx mod size_x <? size_x - 1 then [idx + 1] else []) ++
    (if size_x <=? idx then [idx - size_x] else []) ++
    (if idx <? size_x * (size_y - 1) then [idx + size_x] else []).

(** Modelled from the spec: the 8-connected neighbourhood of
    [explore/costmap_tools.h], the edge-adjacent and corner-adjacent cells
    of a cell that lie on the grid. *)
Definition grid_nhood8 (idx : nat) (costmap : Costmap2D) : list nat :=
  let size_x := getSizeInCellsX costmap in
  let size_y := getSizeInCellsY costmap in
  if size_x * size_y <=? idx then []
  else
    grid_nhood4 idx costmap ++
    (if (0 <? idx mod size_x) && (size_x <=? idx)
     then [idx - 1 - size_x] else []) ++
    (if (0 <? idx mod size_x) && (idx <? size_x * (size_y - 1))
     then [idx - 1 + size_x] else []) ++
    (if (idx mod size_x <? size_x - 1) && (size_x <=? idx)
     then [idx + 1 - size_x] else []) ++
    (if (idx mod size_x <? size_x - 1) && (idx <? size_x * (size_y - 1))
     then [idx + 1 + size_x] else []).

(** Modelled from the spec: the Nearest-Free-Cell Finder of
    [explore/costmap_tools.h], a breadth-first search over the 8-connected
    neighbourhood that returns the first cell holding [val]. *)
Fixpoint nearest_loop (val : Z) (costmap : Costmap2D) (fuel : nat)
    (queue : list nat) (visited : list bool) : option nat :=
  match fuel with
  | 0 => None
  | S fuel' =>
      match queue with
      | [] => None
      | idx :: rest =>
          if decide (getCharMap costmap !! idx = Some val) then Some idx
          else
            let fresh :=
              remove_dups
                (filter (λ nbr, visited !! nbr = Some false)
                   (grid_nhood8 idx costmap)) in
            nearest_loop val costmap fuel' (rest ++ fresh)
              (foldl (λ v nbr, <[nbr := true]> v) visited fresh)
      end
  end.

Definition grid_nearestCell (start : nat) (val : Z) (costmap : Costmap2D)
    : option nat :=
  let n := getSizeInCellsX costmap * getSizeInCellsY costmap in
  if n <=? start then None
  else nearest_loop val costmap (S n) [start]
         (<[start := true]> (replicate n false)).

(** A random source that always yields the same seed, and a sampler that
    returns a fixed deviate: the noise is held at [noise]. *)
Definition fixed_device (k : nat) : Z := 0.
Definition fixed_noise (noise : float) (mean std_dev : float) (seed : Z)
    : float := noise.

(** The search on a grid with unit resolution and origin [(0, 0)]. *)
Definition explorer (size_x size_y : nat) (costs : list Z)
    (potential_scale gain_scale min_frontier_size : float) : FrontierSearch :=
  mkFrontierSearch (grid size_x size_y 1 0 0 costs)
    potential_scale gain_scale min_frontier_size.

Definition explore (this : FrontierSearch) (noise : float) (position : Point)
    (p : Process) : list Frontier * Process :=
  searchFrom grid_nhood4 grid_nhood8 grid_nearestCell fixed_device
    (fixed_noise noise) this position p.

(** Three by three cells, all free but the corner cell 2. *)
Definition corner_map : list Z :=
  [0; 0; 255;
   0; 0; 0;
   0; 0; 0]%Z.

(** Five by five cells, all free but a strip of two cells on the lower
    edge. *)
Definition strip_map : list Z :=
  [0; 0; 255; 255; 0;
   0; 0; 0; 0; 0;
   0; 0; 0; 0; 0;
   0; 0; 0; 0; 0;
   0; 0; 0; 0; 0]%Z.

(** Three by three cells with two unknown cells in opposite corners. *)
Definition corners_map : list Z :=
  [255; 0; 0;
   0; 0; 0;
   0; 0; 255]%Z.


(** The robot in the middle of a grid of three by three, and of five by
    five. *)
Definition centre3 : Point := geometry_msgs.mkPoint 1.5 1.5 0.
Definition centre5 : Point := geometry_msgs.mkPoint 2.5 2.5 0.

(** Five by five cells with a strip of two unknown cells on the lower edge
    and a strip of three on the upper edge. *)
Definition strips_map : list Z :=
  [0; 0; 255; 255; 0;
   0; 0; 0; 0; 0;
   0; 0; 0; 0; 0;
   0; 0; 0; 0; 0;
   0; 255; 255; 255; 0]%Z.

(** The frontier of a lone seed. *)
Definition lone_frontier : Frontier :=
  {| size := 1; min_distance := infinity; cost := 0;
     initial := geometry_msgs.mkPoint 2.5 0.5 0;
     centroid := geometry_msgs.mkPoint 0 0 0;
     middle := geometry_msgs.mkPoint 0 0 0;
     points := [] |}.

(** ** Termination measures

    What bounds the remaining iterations of each loop: the cells in the
    queue and the cells whose flag can still be set. *)
Definition build_measure (st : build.state) : nat :=
  length (build.bfs st) + unset (build.frontier_flag st).

Definition search_measure (st : search.state) : nat :=
  length (search.bfs st) + unset (search.visited_flag st).

(** ** Vocabulary of the specification *)

(** The test of the minimum size, as [searchFrom] writes it. *)
Definition large_enough (this : FrontierSearch) (f : Frontier) : bool :=
  (min_frontier_size_ this
     <=? to_double (size f) * getResolution (costmap_ this))%float.

(** The distance of the robot to the point to avoid. *)
Definition robot_human (pose : Point) : float :=
  distance human_x human_y (geometry_msgs.x pose) (geometry_msgs.y pose).

(** The running pair of [min_distance] and [middle]: a point replaces the
    pair when it is strictly closer to the reference than the distance held
    so far. *)
Definition nearer (reference_x reference_y : float) (acc : float * Point)
    (q : Point) : float * Point :=
  let d := distance reference_x reference_y (geometry_msgs.x q)
             (geometry_msgs.y q) in
  if (d <? acc.1)%float
  then (d, geometry_msgs.mkPoint (geometry_msgs.x q) (geometry_msgs.y q)
             (geometry_msgs.z acc.2))
  else acc.

(** The statistics of a frontier as functions of its points alone: the sums
    of the coordinates, and the nearest of the points. *)
Definition sum_x (l : list Point) : float :=
  foldl (λ s q, s + geometry_msgs.x q)%float 0%float l.
Definition sum_y (l : list Point) : float :=
  foldl (λ s q, s + geometry_msgs.y q)%float 0%float l.
Definition nearest (reference_x reference_y : float) (l : list Point)
    : float * Point :=
  foldl (nearer reference_x reference_y)
    (infinity, geometry_msgs.Point_default) l.

(** The arithmetic mean of a list of world points. *)
Definition mean_point (l : list Point) : Point :=
  geometry_msgs.mkPoint
    (sum_x l / to_double (length l))%float
    (sum_y l / to_double (length l))%float
    0.


(** ** Invariants of the two loops *)

(** What holds of the region loop started on the flag array [flags0] for
    the cell [initial_cell]: the accepted cells are distinct, each was unset
    on entry and is set now, a flag is never cleared, and the output lists
    the accepted cells in order. *)
Definition build_inv (nhood4 : nat → Costmap2D → list nat)
    (this : FrontierSearch) (flags0 : list bool) (initial_cell : nat)
    (st : build.state) : Prop :=
  NoDup (build.cells st) ∧
  (∀ c, c ∈ build.cells st →
     flags0 !! c = Some false ∧ build.frontier_flag st !! c = Some true) ∧
  (∀ c, flags0 !! c = Some true → build.frontier_flag st !! c = Some true) ∧
  (∀ c, build.frontier_flag st !! c = Some false → flags0 !! c = Some false) ∧
  points (build.output st) = cellPoint this <$> build.cells st ∧
  size (build.output st) = S (length (build.cells st)) ∧
  initial (build.output st) = cellPoint this initial_cell.

(** What holds of the output of the region loop: its sums and its nearest
    point are those of the points appended so far. *)
Definition build_stats (rx ry : float) (o : Frontier) : Prop :=
  centroid o = geometry_msgs.mkPoint (sum_x (points o)) (sum_y (points o)) 0 ∧
  (min_distance o, middle o) = nearest rx ry (points o).

(** What holds of the outward loop: the member cells of the retained
    regions are pairwise distinct and flagged, and each retained frontier
    lists the world points of its member cells after the initial one. *)
Definition search_inv (this : FrontierSearch) (st : search.state) : Prop :=
  NoDup (concat (search.members st)) ∧
  (∀ c, c ∈ concat (search.members st) →
     search.frontier_flag st !! c = Some true) ∧
  Forall2 (λ f region, initial f :: points f = cellPoint this <$> region)
    (search.frontier_list st) (search.members st).


(** ** Further vocabulary *)

(** A cell that is unknown and has a free cell in its 4-connected
    neighbourhood: what [isNewFrontierCell] looks for, the flag apart. *)
Definition frontier_cell (nhood4 : nat → Costmap2D → list nat)
    (this : FrontierSearch) (c : nat) : Prop :=
  map_ this !! c = Some NO_INFORMATION ∧
  ∃ nbr, nbr ∈ nhood4 c (costmap_ this) ∧ map_ this !! nbr = Some FREE_SPACE.

(** The flag array after [frontier_flag[c] = true] for each cell of a list. *)
Definition set_flags (flags : list bool) (cells : list nat) : list bool :=
  foldl (λ f c, <[c := true]> f) flags cells.

(** The predicate refuses every cell of the 8-connected neighbourhood of
    [c]. *)
Definition refused_around (nhood4 nhood8 : nat → Costmap2D → list nat)
    (this : FrontierSearch) (flags : list bool) (c : nat) : Prop :=
  Forall (λ nbr, isNewFrontierCell nhood4 this nbr flags = false)
    (nhood8 c (costmap_ this)).

(** Every member of the region so far is still waiting in [pending] or has
    no acceptable cell around it. *)
Definition build_closed (nhood4 nhood8 : nat → Costmap2D → list nat)
    (this : FrontierSearch) (initial_cell : nat) (pending : list nat)
    (st : build.state) : Prop :=
  ∀ c, c ∈ initial_cell :: build.cells st →
    c ∈ pending ∨ refused_around nhood4 nhood8 this (build.frontier_flag st) c.

(** Every queued cell is a member of the region, and every accepted cell
    lies in the 8-connected neighbourhood of the initial cell or of a cell
    accepted before it. *)
Definition build_linked (nhood8 : nat → Costmap2D → list nat)
    (this : FrontierSearch) (initial_cell : nat) (st : build.state) : Prop :=
  (∀ c, c ∈ build.bfs st → c ∈ initial_cell :: build.cells st) ∧
  ∀ k c, build.cells st !! k = Some c →
    ∃ d, d ∈ initial_cell :: take k (build.cells st) ∧
         c ∈ nhood8 d (costmap_ this).


(** The outward loop after [bfs.pop()]. *)
Definition search_pop (st : search.state) : search.state :=
  search.mk (search.frontier_list st) (search.frontier_flag st)
    (search.visited_flag st) (tail (search.bfs st)) (search.members st).

(** The traversal descends: a cell that is visited or queued costs no more
    than the cell [front] the traversal started from. *)
Definition search_descending (this : FrontierSearch) (front : nat)
    (st : search.state) : Prop :=
  ∀ c v v0,
    search.visited_flag st !! c = Some true ∨ c ∈ search.bfs st →
    map_ this !! c = Some v → map_ this !! front = Some v0 → (v ≤ v0)%Z.

(** Around a cell that is not unknown, no cell of the 4-connected
    neighbourhood is acceptable any more. *)
Definition settled (nhood4 : nat → Costmap2D → list nat)
    (this : FrontierSearch) (flags : list bool) (c : nat) : Prop :=
  ∀ v, map_ this !! c = Some v → (v < NO_INFORMATION)%Z →
    Forall (λ nbr, isNewFrontierCell nhood4 this nbr flags = false)
      (nhood4 c (costmap_ this)).

(** Every visited cell is still waiting in [pending], or is settled. *)
Definition search_complete (nhood4 : nat → Costmap2D → list nat)
    (this : FrontierSearch) (pending : list nat) (st : search.state) : Prop :=
  ∀ c, search.visited_flag st !! c = Some true →
    c ∈ pending ∨ settled nhood4 this (search.frontier_flag st) c.

(** A region starts with a cell of the 4-connected neighbourhood of a cell
    of the traversal: the cell it started from, or a visited one. *)
Definition seeded (nhood4 : nat → Costmap2D → list nat)
    (this : FrontierSearch) (front : nat) (visited : list bool)
    (region : list nat) : Prop :=
  ∃ seed rest idx,
    region = seed :: rest ∧ seed ∈ nhood4 idx (costmap_ this) ∧
    (idx = front ∨ visited !! idx = Some true).

Definition search_seeded (nhood4 : nat → Costmap2D → list nat)
    (this : FrontierSearch) (front : nat) (st : search.state) : Prop :=
  (∀ c, c ∈ search.bfs st →
     c = front ∨ search.visited_flag st !! c = Some true) ∧
  Forall (seeded nhood4 this front (search.visited_flag st))
    (search.members st).

(** The flag array keeps the size of the grid, the counter of a retained
    frontier is the number of its member cells, and these are frontier
    cells. *)
Definition search_sized (nhood4 : nat → Costmap2D → list nat)
    (this : FrontierSearch) (st : search.state) : Prop :=
  length (search.frontier_flag st)
  = getSizeInCellsX (costmap_ this) * getSizeInCellsY (costmap_ this) ∧
  Forall2 (λ f region, size f = length region)
    (search.frontier_list st) (search.members st) ∧
  Forall (Forall (frontier_cell nhood4 this)) (search.members st).

(** The process after successive calls of [searchFrom]: the statics of
    [frontierCost] belong to the function and not to an object, so a step
    names the object on which the call is made, with the costmap it points
    to at that moment, and the position of the call. *)
Definition calls (nhood4 nhood8 : nat → Costmap2D → list nat)
    (nearestCell : nat → Z → Costmap2D → option nat)
    (random_device : nat → Z)
    (normal_distribution : float → float → Z → float)
    (steps : list (FrontierSearch * Point)) (p : Process) : Process :=
  foldl (λ q step,
           snd (searchFrom nhood4 nhood8 nearestCell random_device
                  normal_distribution step.1 step.2 q))
    p steps.

(** The two lines that [frontierCost] prints when the robot is less than 3
    away from the point to avoid. *)
Definition near_lines (pose : Point) : list Diagnostic :=
  [ROS_INFO "robot location: %f, %f"
     [geometry_msgs.x pose; geometry_msgs.y pose];
   ROS_INFO "robot_human: %f" [robot_human pose]].

(** The weight is one of its two values, and it is 3 only under a closed
    latch. *)
Definition two_valued (p : Process) : Prop :=
  (weight p = 0%float ∨ weight p = 3%float) ∧
  (flag p = false → weight p = 0%float).

(** Three by three cells, all free. *)
Definition free_map : list Z :=
  [0; 0; 0;
   0; 0; 0;
   0; 0; 0]%Z.


(** The search on the grid with two strips, and the same grid laid around
    the point to avoid, its origin at [(-5, -8)]. *)
Definition strips_explorer : FrontierSearch := explorer 5 5 strips_map 1 1 1.
Definition strips_near_human : FrontierSearch :=
  mkFrontierSearch (grid 5 5 1 (-5) (-8) strips_map) 1 1 1.


(** ** Results *)

(** *** Order of doubles *)

Lemma SFcompare_swap (a b : spec_float) :
  SFcompare b a = CompOpp <$> SFcompare a b.
Proof.
  destruct a as [[]|[]| |[] m1 e1], b as [[]|[]| |[] m2 e2]; simpl; try done.
  - rewrite (Z.compare_antisym e1 e2).
    destruct (e1 ?= e2)%Z eqn:He; simpl; try done.
    pose proof (Pos.compare_cont_antisym m1 m2 Eq) as H. simpl in H.
    by rewrite <- H.
  - rewrite (Z.compare_antisym e1 e2).
    destruct (e1 ?= e2)%Z eqn:He; simpl; try done.
    pose proof (Pos.compare_cont_antisym m1 m2 Eq) as H. simpl in H.
    by rewrite <- H.
Qed.

Lemma SFcompare_nan (a b : spec_float) :
  SFcompare a b = None → a = S754_nan ∨ b = S754_nan.
Proof.
  destruct a as [[]|[]| |[] m1 e1], b as [[]|[]| |[] m2 e2]; simpl;
    try discriminate; auto.
Qed.

Lemma is_nan_Prim2SF (a : float) :
  is_nan a = false → Prim2SF a ≠ S754_nan.
Proof.
  unfold is_nan. rewrite FloatAxioms.eqb_spec. intros H E. rewrite E in H.
  discriminate.
Qed.

Lemma ltb_leb (a b : float) : (a <? b)%float = true → (a <=? b)%float = true.
Proof.
  rewrite FloatAxioms.ltb_spec, FloatAxioms.leb_spec. unfold SFltb, SFleb.
  by destruct (SFcompare _ _) as [[]|].
Qed.

Lemma nltb_leb (a b : float) :
  is_nan a = false → is_nan b = false →
  (a <? b)%float = false → (b <=? a)%float = true.
Proof.
  intros Ha%is_nan_Prim2SF Hb%is_nan_Prim2SF.
  rewrite FloatAxioms.ltb_spec, FloatAxioms.leb_spec. unfold SFltb, SFleb.
  rewrite (SFcompare_swap (Prim2SF a) (Prim2SF b)).
  destruct (SFcompare (Prim2SF a) (Prim2SF b)) as [[]|] eqn:E; simpl; try done.
  apply SFcompare_nan in E as [|]; done.
Qed.

Lemma SFcompare_refl (a : spec_float) :
  a ≠ S754_nan → SFcompare a a = Some Eq.
Proof.
  destruct a as [[]|[]| |[] m e]; simpl; try done; intros _;
    rewrite Z.compare_refl;
    change (PosDef.Pos.compare_cont Eq m m) with (Pos.compare_cont Eq m m);
    by rewrite Pos.compare_cont_refl.
Qed.

Lemma leb_nan_l (a b : float) : is_nan a = true → (a <=? b)%float = false.
Proof.
  unfold is_nan. rewrite FloatAxioms.eqb_spec, FloatAxioms.leb_spec.
  unfold SFeqb, SFleb. intros H.
  destruct (Prim2SF a) as [s|s| |s m e] eqn:E; [| |done|];
    by rewrite SFcompare_refl in H.
Qed.



(** *** std::sort *)

Section SortFacts.
Context {A : Type} (comp : A → A → bool).

Lemma sort_insert_perm (a : A) (l : list A) : sort_insert comp a l ≡ₚ a :: l.
Proof.
  induction l as [|b l IH]; simpl; [done|].
  destruct (comp a b); [done|]. rewrite IH. apply Permutation_swap.
Qed.

Lemma std_sort_perm (l : list A) : std_sort comp l ≡ₚ l.
Proof.
  induction l as [|a l IH]; simpl; [done|].
  by rewrite sort_insert_perm, IH.
Qed.

Lemma std_sort_elem_of (a : A) (l : list A) : a ∈ std_sort comp l ↔ a ∈ l.
Proof. by rewrite std_sort_perm. Qed.

(** Insertion keeps a list sorted for any relation that the comparator
    decides on the elements at hand. *)
Context (le : A → A → Prop) (good : A → Prop).
Hypothesis comp_le : ∀ a b, comp a b = true → le a b.
Hypothesis ncomp_le : ∀ a b, good a → good b → comp a b = false → le b a.

Lemma sort_insert_sorted (a : A) (l : list A) :
  good a → Forall good l → Sorted le l → Sorted le (sort_insert comp a l).
Proof using comp_le ncomp_le.
  intros Ha Hl Hs. induction Hs as [|b l Hs IH Hb]; simpl.
  { by repeat constructor. }
  apply Forall_cons in Hl as [Hgb Hl].
  destruct (comp a b) eqn:E.
  - constructor; [by constructor|]. constructor. by apply comp_le.
  - constructor; [by apply IH|].
    destruct Hb as [|c l Hbc]; simpl.
    + constructor. by apply ncomp_le.
    + destruct (comp a c); constructor; [by apply ncomp_le | done].
Qed.

Lemma std_sort_sorted (l : list A) : Forall good l → Sorted le (std_sort comp l).
Proof using comp_le ncomp_le.
  induction l as [|a l IH]; simpl; [constructor|].
  intros [Ha Hl]%Forall_cons. apply sort_insert_sorted; [done| |by apply IH].
  by rewrite std_sort_perm.
Qed.
End SortFacts.

Lemma sort_insert_fmap {A B : Type} (f : A → B) (comp : B → B → bool)
    (a : A) (l : list A) :
  f <$> sort_insert (λ a b, comp (f a) (f b)) a l
  = sort_insert comp (f a) (f <$> l).
Proof.
  induction l as [|b l IH]; csimpl; [done|].
  destruct (comp (f a) (f b)); csimpl; [done|]. by rewrite IH.
Qed.

Lemma std_sort_fmap {A B : Type} (f : A → B) (comp : B → B → bool)
    (l : list A) :
  f <$> std_sort (λ a b, comp (f a) (f b)) l = std_sort comp (f <$> l).
Proof.
  induction l as [|a l IH]; csimpl; [done|].
  by rewrite sort_insert_fmap, IH.
Qed.

(** *** Flag arrays *)

Lemma unset_insert (flags : list bool) (i : nat) :
  flags !! i = Some false → S (unset (<[i := true]> flags)) = unset flags.
Proof.
  unfold unset. revert i. induction flags as [|b flags IH]; intros [|i] H;
    simplify_eq/=.
  - by rewrite filter_cons_False.
  - destruct b.
    + rewrite !filter_cons_False by done. by apply IH.
    + rewrite !filter_cons_True by done. simpl. f_equal. by apply IH.
Qed.

Lemma insert_true_keeps (flags : list bool) (i c : nat) :
  flags !! c = Some true → <[i := true]> flags !! c = Some true.
Proof.
  intros H. destruct (decide (i = c)) as [->|Hne].
  - apply list_lookup_insert_eq. by eapply lookup_lt_Some.
  - by rewrite list_lookup_insert_ne.
Qed.

Lemma insert_true_unset (flags : list bool) (i c : nat) :
  <[i := true]> flags !! c = Some false → i ≠ c ∧ flags !! c = Some false.
Proof.
  intros H. destruct (decide (i = c)) as [->|Hne].
  - apply lookup_lt_Some in H as Hlt. rewrite length_insert in Hlt.
    rewrite list_lookup_insert_eq in H by done. done.
  - by rewrite list_lookup_insert_ne in H.
Qed.

(** *** The region loop *)

Section BuildFacts.
Context (nhood4 nhood8 : nat → Costmap2D → list nat) (this : FrontierSearch).

Local Abbreviation isNew := (isNewFrontierCell nhood4 this).
Local Abbreviation visit := (build_visit nhood4 this).
Local Abbreviation loop := (build_loop nhood4 nhood8 this).
Local Abbreviation run := (build_run nhood4 nhood8 this).

(** A cell the predicate accepts is unknown and not flagged yet. *)
Lemma isNew_unset (idx : nat) (flags : list bool) :
  isNew idx flags = true →
  map_ this !! idx = Some NO_INFORMATION ∧ flags !! idx = Some false.
Proof.
  unfold isNewFrontierCell.
  destruct (map_ this !! idx) as [c|]; [|done].
  destruct (flags !! idx) as [[]|]; [|  |done].
  - by rewrite orb_true_r.
  - rewrite orb_false_r. destruct (c =? NO_INFORMATION)%Z eqn:E; [|done].
    apply Z.eqb_eq in E as ->. done.
Qed.

(** A flagged cell is never accepted again. *)
Lemma isNew_flagged (idx : nat) (flags : list bool) :
  flags !! idx = Some true → isNew idx flags = false.
Proof.
  intros H. destruct (isNew idx flags) eqn:E; [|done].
  apply isNew_unset in E as [_ E]. congruence.
Qed.

(** One neighbour: either nothing changes, or the cell is flagged, queued
    and recorded. *)
Lemma build_visit_cases (rx ry : float) (st : build.state) (nbr : nat) :
  (isNew nbr (build.frontier_flag st) = false ∧ visit rx ry st nbr = st) ∨
  (isNew nbr (build.frontier_flag st) = true ∧
   build.frontier_flag (visit rx ry st nbr)
     = <[nbr := true]> (build.frontier_flag st) ∧
   build.bfs (visit rx ry st nbr) = build.bfs st ++ [nbr] ∧
   build.cells (visit rx ry st nbr) = build.cells st ++ [nbr] ∧
   points (build.output (visit rx ry st nbr))
     = points (build.output st) ++ [cellPoint this nbr] ∧
   size (build.output (visit rx ry st nbr)) = S (size (build.output st)) ∧
   initial (build.output (visit rx ry st nbr)) = initial (build.output st)).
Proof.
  unfold build_visit, cellPoint.
  destruct (isNew nbr (build.frontier_flag st)); [right|left; done].
  by destruct (cellToWorld this nbr).
Qed.

Lemma build_visit_measure (rx ry : float) (st : build.state) (nbr : nat) :
  build_measure (visit rx ry st nbr) = build_measure st.
Proof.
  destruct (build_visit_cases rx ry st nbr) as [[_ ->]|(E & Hf & Hq & _)];
    [done|].
  apply isNew_unset in E as [_ E]. apply unset_insert in E.
  unfold build_measure. rewrite Hf, Hq, length_app. simpl. lia.
Qed.

Lemma build_visits_measure (rx ry : float) (nbrs : list nat)
    (st : build.state) :
  build_measure (foldl (visit rx ry) st nbrs) = build_measure st.
Proof.
  revert st. induction nbrs as [|nbr nbrs IH]; intros st; simpl; [done|].
  by rewrite IH, build_visit_measure.
Qed.

(** The region loop empties its queue within the fuel it is given. *)
Lemma build_loop_done (rx ry : float) (fuel : nat) (st : build.state) :
  build_measure st ≤ fuel → build.bfs (loop rx ry fuel st) = [].
Proof.
  revert st. induction fuel as [|fuel IH]; intros st Hm; simpl.
  - unfold build_measure in Hm. destruct (build.bfs st); [done|simpl in Hm; lia].
  - destruct (build.bfs st) as [|idx rest] eqn:E; [done|].
    apply IH. rewrite build_visits_measure.
    unfold build_measure in *. rewrite E in Hm. simpl in *. lia.
Qed.

Lemma build_run_done (initial_cell reference : nat) (flags : list bool) :
  build.bfs (run initial_cell reference flags) = [].
Proof.
  unfold build_run. destruct (cellToWorld this reference) as [rx ry].
  apply build_loop_done. unfold build_measure, build_init. simpl. lia.
Qed.

(** More fuel changes nothing once the queue has been emptied. *)
Lemma build_loop_more (rx ry : float) (fuel extra : nat) (st : build.state) :
  build_measure st ≤ fuel →
  loop rx ry (fuel + extra) st = loop rx ry fuel st.
Proof.
  revert st. induction fuel as [|fuel IH]; intros st Hm.
  - unfold build_measure in Hm. destruct extra; simpl; [done|].
    destruct (build.bfs st); [done|simpl in Hm; lia].
  - simpl. destruct (build.bfs st) as [|idx rest] eqn:E; [done|].
    apply IH. rewrite build_visits_measure.
    unfold build_measure in *. rewrite E in Hm. simpl in *. lia.
Qed.

(** The invariant of the region loop. *)
Lemma build_inv_init (initial_cell : nat) (flags : list bool) :
  build_inv nhood4 this flags initial_cell (build_init this initial_cell flags).
Proof.
  unfold build_inv, build_init; simpl.
  split_and!; try done; [constructor|]. intros c Hc. by apply elem_of_nil in Hc.
Qed.

Lemma build_inv_pop (flags0 : list bool) (initial_cell : nat)
    (st : build.state) (rest : list nat) :
  build_inv nhood4 this flags0 initial_cell st →
  build_inv nhood4 this flags0 initial_cell
    (build.mk (build.output st) (build.frontier_flag st) rest (build.cells st)).
Proof. done. Qed.

Lemma build_inv_visit (rx ry : float) (flags0 : list bool) (initial_cell : nat)
    (st : build.state) (nbr : nat) :
  build_inv nhood4 this flags0 initial_cell st →
  build_inv nhood4 this flags0 initial_cell (visit rx ry st nbr).
Proof.
  intros (Hnd & Hc & Hkeep & Hmono & Hp & Hs & Hi).
  destruct (build_visit_cases rx ry st nbr)
    as [[_ ->]|(E & Hf & _ & Hcs & Hps & Hss & His)]; [done|].
  apply isNew_unset in E as [_ E].
  unfold build_inv. rewrite Hf, Hcs, Hps, Hss, His.
  split_and!.
  - apply NoDup_app. split_and!; [done| |apply NoDup_singleton].
    intros c Hin ->%list_elem_of_singleton. apply Hc in Hin as [_ Hin].
    congruence.
  - intros c [Hin| ->%list_elem_of_singleton]%elem_of_app.
    + apply Hc in Hin as [? ?]. split; [done|]. by apply insert_true_keeps.
    + split; [by apply Hmono|]. apply list_lookup_insert_eq.
      by eapply lookup_lt_Some.
  - intros c H0. by apply insert_true_keeps, Hkeep.
  - intros c [_ H]%insert_true_unset. by apply Hmono.
  - by rewrite fmap_app, Hp.
  - rewrite length_app. simpl. lia.
  - done.
Qed.

Lemma build_inv_visits (rx ry : float) (flags0 : list bool) (initial_cell : nat)
    (nbrs : list nat) (st : build.state) :
  build_inv nhood4 this flags0 initial_cell st →
  build_inv nhood4 this flags0 initial_cell (foldl (visit rx ry) st nbrs).
Proof.
  revert st. induction nbrs as [|nbr nbrs IH]; intros st H; simpl; [done|].
  by apply IH, build_inv_visit.
Qed.

Lemma build_inv_loop (rx ry : float) (flags0 : list bool) (initial_cell : nat)
    (fuel : nat) (st : build.state) :
  build_inv nhood4 this flags0 initial_cell st →
  build_inv nhood4 this flags0 initial_cell (loop rx ry fuel st).
Proof.
  revert st. induction fuel as [|fuel IH]; intros st H; simpl; [done|].
  destruct (build.bfs st) as [|idx rest]; [done|].
  by apply IH, build_inv_visits, build_inv_pop.
Qed.

Lemma build_inv_run (initial_cell reference : nat) (flags : list bool) :
  build_inv nhood4 this flags initial_cell (run initial_cell reference flags).
Proof.
  unfold build_run. destruct (cellToWorld this reference) as [rx ry].
  apply build_inv_loop, build_inv_init.
Qed.
End BuildFacts.

(** The statistics that the region loop accumulates are those of the
    points it has appended: the initial cell enters none of them. *)
Section RegionStatistics.
Context (nhood4 nhood8 : nat → Costmap2D → list nat) (this : FrontierSearch).

Lemma build_stats_visit (rx ry : float) (st : build.state) (nbr : nat) :
  build_stats rx ry (build.output st) →
  build_stats rx ry (build.output (build_visit nhood4 this rx ry st nbr)).
Proof.
  intros [Hc Hm]. unfold build_visit, build_stats, sum_x, sum_y, nearest in *.
  destruct (isNewFrontierCell nhood4 this nbr (build.frontier_flag st));
    [|done].
  destruct (cellToWorld this nbr) as [wx wy]. simpl.
  rewrite !foldl_app, <- Hm, Hc. simpl. split; [done|].
  unfold nearer. simpl. by destruct (_ <? _)%float.
Qed.

Lemma build_stats_visits (rx ry : float) (nbrs : list nat)
    (st : build.state) :
  build_stats rx ry (build.output st) →
  build_stats rx ry
    (build.output (foldl (build_visit nhood4 this rx ry) st nbrs)).
Proof.
  revert st. induction nbrs as [|nbr nbrs IH]; intros st H; simpl; [done|].
  by apply IH, build_stats_visit.
Qed.

Lemma build_stats_loop (rx ry : float) (fuel : nat) (st : build.state) :
  build_stats rx ry (build.output st) →
  build_stats rx ry
    (build.output (build_loop nhood4 nhood8 this rx ry fuel st)).
Proof.
  revert st. induction fuel as [|fuel IH]; intros st H; simpl; [done|].
  destruct (build.bfs st) as [|idx rest]; [done|].
  by apply IH, build_stats_visits.
Qed.

(** What [buildNewFrontier] returns, in terms of the points it lists. *)
Lemma region_statistics (initial_cell reference : nat) (flags : list bool) :
  let f := fst (buildNewFrontier nhood4 nhood8 this initial_cell reference
                  flags) in
  size f = S (length (points f)) ∧
  initial f = cellPoint this initial_cell ∧
  centroid f
  = geometry_msgs.mkPoint (sum_x (points f) / to_double (size f))%float
      (sum_y (points f) / to_double (size f))%float 0 ∧
  (min_distance f, middle f)
  = nearest (cellToWorld this reference).1 (cellToWorld this reference).2
      (points f).
Proof.
  pose proof (build_inv_run nhood4 nhood8 this initial_cell reference flags)
    as (_ & _ & _ & _ & Hp & Hs & Hi).
  unfold buildNewFrontier. cbn zeta. cbn [fst]. revert Hp Hs Hi.
  unfold build_run. destruct (cellToWorld this reference) as [rx ry].
  intros Hp Hs Hi.
  destruct (build_stats_loop rx ry (S (unset flags))
              (build_init this initial_cell flags)) as [Hc Hm]; [done|].
  revert Hp Hs Hi Hc Hm.
  generalize (build.output
                (build_loop nhood4 nhood8 this rx ry (S (unset flags))
                   (build_init this initial_cell flags))).
  intros o Hp Hs Hi Hc Hm. unfold average. simpl. split_and!; try done.
  - by rewrite Hs, Hp, length_fmap.
  - by rewrite Hc.
Qed.
End RegionStatistics.

(** *** The outward loop *)

Section SearchFacts.
Context (nhood4 nhood8 : nat → Costmap2D → list nat)
  (nearestCell : nat → Z → Costmap2D → option nat) (this : FrontierSearch).

Local Abbreviation isNew := (isNewFrontierCell nhood4 this).
Local Abbreviation run := (build_run nhood4 nhood8 this).
Local Abbreviation visit := (search_visit nhood4 nhood8 this).
Local Abbreviation loop := (search_loop nhood4 nhood8 this).

(** One neighbour of the outward loop: it is admitted to the traversal, or
    it starts a region that is retained or dropped, or nothing happens. *)
Lemma search_visit_cases (pos idx : nat) (st : search.state) (nbr : nat) :
  (search.visited_flag st !! nbr = Some false ∧
   visit pos idx st nbr
   = search.mk (search.frontier_list st) (search.frontier_flag st)
       (<[nbr := true]> (search.visited_flag st)) (search.bfs st ++ [nbr])
       (search.members st)) ∨
  (isNew nbr (search.frontier_flag st) = true ∧
   let b := run nbr pos (<[nbr := true]> (search.frontier_flag st)) in
   let f := average (build.output b) in
   (large_enough this f = true ∧
    visit pos idx st nbr
    = search.mk (search.frontier_list st ++ [f]) (build.frontier_flag b)
        (search.visited_flag st) (search.bfs st)
        (search.members st ++ [nbr :: build.cells b])) ∨
   (large_enough this f = false ∧
    visit pos idx st nbr
    = search.mk (search.frontier_list st) (build.frontier_flag b)
        (search.visited_flag st) (search.bfs st) (search.members st))) ∨
  visit pos idx st nbr = st.
Proof.
  unfold search_visit, buildNewFrontier, large_enough.
  destruct (map_ this !! nbr) as [vn|];
    [destruct (map_ this !! idx) as [vi|];
      [destruct (search.visited_flag st !! nbr) as [[]|] eqn:Ev|]|].
  all: rewrite ?andb_false_r, ?andb_true_r.
  2: destruct (vn <=? vi)%Z; [left; done|].
  all: destruct (isNew nbr (search.frontier_flag st)); [|right; right; done].
  all: right; left; split; [done|]; simpl.
  all: destruct (_ <=? _)%float; [left|right]; done.
Qed.

Lemma search_visit_measure (pos idx : nat) (st : search.state) (nbr : nat) :
  search_measure (visit pos idx st nbr) = search_measure st.
Proof.
  destruct (search_visit_cases pos idx st nbr)
    as [[E ->]|[[_ [[_ ->]|[_ ->]]]| ->]]; try done.
  apply unset_insert in E. unfold search_measure. simpl.
  rewrite length_app. simpl. lia.
Qed.

Lemma search_visits_measure (pos idx : nat) (nbrs : list nat)
    (st : search.state) :
  search_measure (foldl (visit pos idx) st nbrs) = search_measure st.
Proof.
  revert st. induction nbrs as [|nbr nbrs IH]; intros st; simpl; [done|].
  by rewrite IH, search_visit_measure.
Qed.

(** The outward loop empties its queue within the fuel it is given. *)
Lemma search_loop_done (pos fuel : nat) (st : search.state) :
  search_measure st ≤ fuel → search.bfs (loop pos fuel st) = [].
Proof.
  revert st. induction fuel as [|fuel IH]; intros st Hm; simpl.
  - unfold search_measure in Hm.
    destruct (search.bfs st); [done|simpl in Hm; lia].
  - destruct (search.bfs st) as [|idx rest] eqn:E; [done|].
    apply IH. rewrite search_visits_measure.
    unfold search_measure in *. rewrite E in Hm. simpl in *. lia.
Qed.

Lemma search_loop_more (pos fuel extra : nat) (st : search.state) :
  search_measure st ≤ fuel → loop pos (fuel + extra) st = loop pos fuel st.
Proof.
  revert st. induction fuel as [|fuel IH]; intros st Hm.
  - unfold search_measure in Hm. destruct extra; simpl; [done|].
    destruct (search.bfs st); [done|simpl in Hm; lia].
  - simpl. destruct (search.bfs st) as [|idx rest] eqn:E; [done|].
    apply IH. rewrite search_visits_measure.
    unfold search_measure in *. rewrite E in Hm. simpl in *. lia.
Qed.

Lemma search_run_done (pos : nat) :
  search.bfs (search_run nhood4 nhood8 nearestCell this pos) = [].
Proof.
  unfold search_run. apply search_loop_done. unfold search_measure. simpl. lia.
Qed.

(** A property of the retained frontiers that every new region has is kept
    by the outward loop. *)
Section Retained.
Context (P : Frontier → Prop) (pos : nat).
Hypothesis P_new : ∀ nbr flags,
  let f := average (build.output (run nbr pos flags)) in
  large_enough this f = true → P f.

Lemma retained_visit (idx : nat) (st : search.state) (nbr : nat) :
  Forall P (search.frontier_list st) →
  Forall P (search.frontier_list (visit pos idx st nbr)).
Proof using P_new.
  intros H. destruct (search_visit_cases pos idx st nbr)
    as [[_ ->]|[[_ [[E ->]|[_ ->]]]| ->]]; try done.
  simpl. apply Forall_app. split; [done|]. repeat constructor.
  by apply P_new.
Qed.

Lemma retained_visits (idx : nat) (nbrs : list nat) (st : search.state) :
  Forall P (search.frontier_list st) →
  Forall P (search.frontier_list (foldl (visit pos idx) st nbrs)).
Proof using P_new.
  revert st. induction nbrs as [|nbr nbrs IH]; intros st H; simpl; [done|].
  by apply IH, retained_visit.
Qed.

Lemma retained_loop (fuel : nat) (st : search.state) :
  Forall P (search.frontier_list st) →
  Forall P (search.frontier_list (loop pos fuel st)).
Proof using P_new.
  revert st. induction fuel as [|fuel IH]; intros st H; simpl; [done|].
  destruct (search.bfs st) as [|idx rest]; [done|].
  by apply IH, retained_visits.
Qed.

Lemma retained_run :
  Forall P
    (search.frontier_list (search_run nhood4 nhood8 nearestCell this pos)).
Proof using P_new. unfold search_run. apply retained_loop. constructor. Qed.
End Retained.

(** The invariant of the outward loop. *)
Lemma search_inv_visit (pos idx : nat) (st : search.state) (nbr : nat) :
  search_inv this st → search_inv this (visit pos idx st nbr).
Proof.
  intros (Hnd & Hflag & Hpts).
  destruct (search_visit_cases pos idx st nbr)
    as [[_ ->]|[[E Hb]| ->]]; try done.
  apply isNew_unset in E as [_ E].
  pose proof (build_inv_run nhood4 nhood8 this nbr pos
                (<[nbr := true]> (search.frontier_flag st)))
    as (Bnd & Bc & Bkeep & _ & Bp & _ & Bi).
  assert (Hset : <[nbr := true]> (search.frontier_flag st) !! nbr = Some true).
  { apply list_lookup_insert_eq. by eapply lookup_lt_Some. }
  assert (Hold : ∀ c, c ∈ concat (search.members st) →
            build.frontier_flag
              (run nbr pos (<[nbr := true]> (search.frontier_flag st))) !! c
            = Some true).
  { intros c Hc. by apply Bkeep, insert_true_keeps, Hflag. }
  simpl in Hb. destruct Hb as [[_ ->]|[_ ->]]; unfold search_inv; simpl.
  - rewrite concat_app. simpl. rewrite app_nil_r. split_and!.
    + apply NoDup_app. split_and!; [done| |].
      * intros c Hc [->|Hin]%elem_of_cons.
        { apply Hflag in Hc. congruence. }
        apply Bc in Hin as [Hin _]. apply Hflag in Hc.
        apply (insert_true_keeps _ nbr) in Hc. congruence.
      * apply NoDup_cons. split; [|done].
        intros Hin. apply Bc in Hin as [Hin _]. congruence.
    + intros c [Hc|[->|Hc]%elem_of_cons]%elem_of_app.
      * by apply Hold.
      * by apply Bkeep.
      * by apply Bc in Hc as [_ ?].
    + apply Forall2_app; [done|]. repeat constructor. simpl.
      by rewrite Bi, Bp.
  - done.
Qed.

Lemma search_inv_visits (pos idx : nat) (nbrs : list nat) (st : search.state) :
  search_inv this st → search_inv this (foldl (visit pos idx) st nbrs).
Proof.
  revert st. induction nbrs as [|nbr nbrs IH]; intros st H; simpl; [done|].
  by apply IH, search_inv_visit.
Qed.

Lemma search_inv_loop (pos fuel : nat) (st : search.state) :
  search_inv this st → search_inv this (loop pos fuel st).
Proof.
  revert st. induction fuel as [|fuel IH]; intros st H; simpl; [done|].
  destruct (search.bfs st) as [|idx rest]; [done|].
  by apply IH, search_inv_visits.
Qed.

Lemma search_inv_run (pos : nat) :
  search_inv this (search_run nhood4 nhood8 nearestCell this pos).
Proof.
  unfold search_run. apply search_inv_loop. unfold search_inv. simpl.
  split_and!; [constructor| |constructor].
  intros c Hc. by apply elem_of_nil in Hc.
Qed.
End SearchFacts.

(** *** The cost model *)

Section CostFacts.
Context (random_device : nat → Z)
  (normal_distribution : float → float → Z → float) (this : FrontierSearch).

Local Abbreviation score :=
  (frontierCost random_device normal_distribution this).
Local Abbreviation scores :=
  (set_costs random_device normal_distribution this).

(** What the update leaves in the two statics. *)
Lemma bias_update_weight (pose : Point) (d : float) (p : Process) :
  weight (bias_update pose d p)
  = if (d <? 3)%float then 0%float
    else if (d <? 6)%float && negb (flag p) then 3%float else weight p.
Proof.
  unfold bias_update. destruct (d <? 3)%float; [done|].
  by destruct ((d <? 6)%float && negb (flag p)).
Qed.

Lemma bias_update_flag (pose : Point) (d : float) (p : Process) :
  flag (bias_update pose d p)
  = if (d <? 3)%float then flag p
    else if (d <? 6)%float && negb (flag p) then true else flag p.
Proof.
  unfold bias_update. destruct (d <? 3)%float; [done|].
  by destruct ((d <? 6)%float && negb (flag p)).
Qed.

Lemma bias_update_rd_taken (pose : Point) (d : float) (p : Process) :
  rd_taken (bias_update pose d p) = rd_taken p.
Proof.
  unfold bias_update. destruct (d <? 3)%float; [done|].
  by destruct ((d <? 6)%float && negb (flag p)).
Qed.

(** The latch is never released. *)
Lemma bias_update_latched (pose : Point) (d : float) (p : Process) :
  flag p = true → flag (bias_update pose d p) = true.
Proof.
  intros H. rewrite bias_update_flag, H. by destruct (d <? 3)%float, (d <? 6)%float.
Qed.

(** A second update for the same distance changes neither static. *)
Lemma bias_update_again (pose : Point) (d : float) (p q : Process) :
  weight q = weight (bias_update pose d p) →
  flag q = flag (bias_update pose d p) →
  weight (bias_update pose d q) = weight q ∧
  flag (bias_update pose d q) = flag q.
Proof.
  rewrite !bias_update_weight, !bias_update_flag.
  destruct (d <? 3)%float; [by intros -> ->|].
  destruct (d <? 6)%float; simpl; [|done].
  destruct (flag p); simpl; intros -> ->; done.
Qed.

(** The statics after a score evaluation, and the draw it consumes. *)
Lemma frontierCost_process (frontier : Frontier) (pose : Point) (p : Process) :
  let q := snd (score frontier pose p) in
  weight q = weight (bias_update pose (robot_human pose) p) ∧
  flag q = flag (bias_update pose (robot_human pose) p) ∧
  rd_taken q = S (rd_taken p).
Proof. simpl. by rewrite bias_update_rd_taken. Qed.

(** The value of a score evaluation. *)
Lemma frontierCost_value (frontier : Frontier) (pose : Point) (p : Process) :
  fst (score frontier pose p)
  = (potential_scale_ this * min_distance frontier
       * getResolution (costmap_ this)
     - gain_scale_ this * to_double (size frontier)
       * getResolution (costmap_ this)
     + weight (bias_update pose (robot_human pose) p)
       * (distance human_x human_y (geometry_msgs.x (middle frontier))
            (geometry_msgs.y (middle frontier))
          + normal_distribution mean std_dev (random_device (rd_taken p)))
       * getResolution (costmap_ this))%float.
Proof. simpl. by rewrite bias_update_rd_taken. Qed.

(** The loop that sets the costs: the [k]-th frontier is scored with the
    weight that the first evaluation leaves and with the [k]-th draw. *)
Lemma set_costs_spec (position : Point) (l : list Frontier) (p : Process) :
  let w := weight (bias_update position (robot_human position) p) in
  fst (scores position l p)
  = imap (λ k f,
       set_cost f
         (potential_scale_ this * min_distance f
            * getResolution (costmap_ this)
          - gain_scale_ this * to_double (size f)
            * getResolution (costmap_ this)
          + w * (distance human_x human_y (geometry_msgs.x (middle f))
                   (geometry_msgs.y (middle f))
                 + normal_distribution mean std_dev
                     (random_device (rd_taken p + k)))
            * getResolution (costmap_ this))%float) l ∧
  rd_taken (snd (scores position l p)) = rd_taken p + length l ∧
  weight (snd (scores position l p))
  = match l with [] => weight p | _ => w end ∧
  flag (snd (scores position l p))
  = match l with
    | [] => flag p
    | _ => flag (bias_update position (robot_human position) p)
    end.
Proof.
  revert p. induction l as [|f l IH]; intros p w.
  { simpl. split_and!; [done|lia|done|done]. }
  cbn [set_costs].
  pose proof (frontierCost_value f position p) as Hv.
  pose proof (frontierCost_process f position p) as (Hw & Hf & Hrd).
  destruct (score f position p) as [c p1]. simpl in Hv, Hw, Hf, Hrd.
  destruct (bias_update_again position (robot_human position) p p1 Hw Hf)
    as [Hw1 Hf1].
  specialize (IH p1). simpl in IH. rewrite Hw1, Hf1, Hrd in IH.
  destruct (scores position l p1) as [l' p2]. simpl in IH.
  destruct IH as (IH1 & IH2 & IH3 & IH4). simpl. split_and!.
  - f_equal.
    + rewrite Hv. by rewrite Nat.add_0_r.
    + rewrite IH1, Hw. apply imap_ext. intros k g _. simpl.
      by rewrite Nat.add_succ_r.
  - lia.
  - rewrite IH3. by destruct l.
  - rewrite IH4. by destruct l.
Qed.
End CostFacts.

(** *** Lists *)

Lemma Forall2_imap_l {A B : Type} (R : A → B → Prop) (h : nat → A → A)
    (l : list A) (k : list B) :
  (∀ i a b, R a b → R (h i a) b) → Forall2 R l k → Forall2 R (imap h l) k.
Proof.
  intros Hh H. revert h Hh. induction H as [|a b l k Hab H IH]; intros h Hh.
  - constructor.
  - rewrite imap_cons. constructor; [by apply Hh|].
    apply IH. intros i. apply Hh.
Qed.

Lemma Forall2_imap_same {A B : Type} (R : A → B → Prop) (h : nat → A → B)
    (l : list A) :
  (∀ k a, R a (h k a)) → Forall2 R l (imap h l).
Proof.
  revert h. induction l as [|a l IH]; intros h Hh; [constructor|].
  rewrite imap_cons. constructor; [apply Hh|]. apply IH. intros k. apply Hh.
Qed.

Lemma Forall2_zip {A B : Type} (R : A → B → Prop) (l : list A) (k : list B) :
  Forall2 R l k → Forall (λ r, R r.1 r.2) (zip l k).
Proof. induction 1; simpl; by constructor. Qed.

(** ** The properties of the specification *)

Section Claims.
Context (nhood4 nhood8 : nat → Costmap2D → list nat)
  (nearestCell : nat → Z → Costmap2D → option nat)
  (random_device : nat → Z)
  (normal_distribution : float → float → Z → float) (this : FrontierSearch).

Local Abbreviation search :=
  (searchFrom nhood4 nhood8 nearestCell random_device normal_distribution this).
Local Abbreviation search_members :=
  (searchFrom_members nhood4 nhood8 nearestCell random_device
     normal_distribution this).
Local Abbreviation retained pos :=
  (search.frontier_list (search_run nhood4 nhood8 nearestCell this pos)).

(** What [searchFrom] returns when the robot is on the map: the retained
    frontiers, scored in order, then sorted. *)
Lemma searchFrom_inside (position : Point) (p : Process) (mx my : nat) :
  worldToMap (costmap_ this) (geometry_msgs.x position)
    (geometry_msgs.y position) = Some (mx, my) →
  ∃ p1, weight p1 = weight p ∧ flag p1 = flag p ∧ rd_taken p1 = rd_taken p ∧
    search position p
    = (std_sort by_cost
         (fst (set_costs random_device normal_distribution this position
                 (retained (getIndex (costmap_ this) mx my)) p1)),
       snd (set_costs random_device normal_distribution this position
              (retained (getIndex (costmap_ this) mx my)) p1)).
Proof.
  intros H. unfold searchFrom. rewrite H.
  set (p1 := if snd (search_start _ _ _) then _ else p).
  exists p1. split_and!; try (subst p1; by destruct (snd _)).
  by destruct (set_costs _ _ _ _ _ _).
Qed.

(** C6: every frontier of the list returned by [searchFrom] passes the test
    [size * resolution >= min_frontier_size_]; a region that fails it is
    never pushed on the list. *)
Theorem returned_frontiers_large_enough (position : Point) (p : Process) :
  Forall (λ f, (min_frontier_size_ this
                  <=? to_double (size f) * getResolution (costmap_ this))%float
               = true)
    (fst (search position p)).
Proof.
  destruct (worldToMap (costmap_ this) (geometry_msgs.x position)
              (geometry_msgs.y position)) as [[mx my]|] eqn:E.
  2: { unfold searchFrom. rewrite E. constructor. }
  destruct (searchFrom_inside position p mx my E) as (p1 & _ & _ & _ & ->).
  simpl. rewrite std_sort_perm.
  destruct (set_costs_spec random_device normal_distribution this position
              (retained (getIndex (costmap_ this) mx my)) p1) as [-> _].
  apply Forall_forall. intros f (k & g & -> & Hg)%elem_of_lookup_imap. simpl.
  pose proof (retained_run nhood4 nhood8 nearestCell this
                (λ f, large_enough this f = true)
                (getIndex (costmap_ this) mx my)) as Hr.
  rewrite Forall_forall in Hr. apply Hr; [done|].
  by eapply list_elem_of_lookup_2.
Qed.

(** C7, as amended: unless a cost is not a number, the list returned by
    [searchFrom] is in non-decreasing order of cost. *)
Theorem sorted_by_cost (position : Point) (p : Process) :
  Forall (λ f, is_nan (cost f) = false) (fst (search position p)) →
  Sorted (λ f1 f2, (cost f1 <=? cost f2)%float = true)
    (fst (search position p)).
Proof.
  destruct (worldToMap (costmap_ this) (geometry_msgs.x position)
              (geometry_msgs.y position)) as [[mx my]|] eqn:E.
  2: { unfold searchFrom. rewrite E. constructor. }
  destruct (searchFrom_inside position p mx my E) as (p1 & _ & _ & _ & ->).
  simpl. intros Hgood. rewrite std_sort_perm in Hgood.
  apply (std_sort_sorted by_cost _ (λ f, is_nan (cost f) = false));
    [| |done].
  - intros a b. apply ltb_leb.
  - intros a b Ha Hb. by apply nltb_leb.
Qed.

(** C8: when [worldToMap] refuses the position of the robot, [searchFrom]
    returns the empty list and its only effect is the error on the console;
    neither loop runs. *)
Theorem robot_out_of_bounds (position : Point) (p : Process) :
  worldToMap (costmap_ this) (geometry_msgs.x position)
    (geometry_msgs.y position) = None →
  search position p
  = ([], mkProcess (weight p) (flag p) (rd_taken p)
           (console p ++
              [ROS_ERROR
                 "Robot out of costmap bounds, cannot search for frontiers"])).
Proof. intros H. unfold searchFrom. by rewrite H. Qed.

(** C5: every frontier that the outward loop retains is scored, in the
    order in which it was retained, and the list is sorted afterwards: the
    list that is sorted is the retained list with nothing but the costs
    changed, and its [k]-th frontier has the cost of the formula, with the
    weight that the call leaves in the process and with a noise sample of
    mean 0 and deviation 0.2 taken from the [k]-th fresh seed. *)
Theorem cost_of_retained_frontiers (position : Point) (p : Process) :
  let kept :=
    match worldToMap (costmap_ this) (geometry_msgs.x position)
            (geometry_msgs.y position) with
    | None => []
    | Some (mx, my) =>
        search.frontier_list
          (search_run nhood4 nhood8 nearestCell this
             (getIndex (costmap_ this) mx my))
    end in
  ∃ scored : list Frontier,
    Forall2 (λ f g, g = set_cost f (cost g)) kept scored ∧
    fst (search position p) = std_sort by_cost scored ∧
    rd_taken (snd (search position p)) = rd_taken p + length scored ∧
    ∀ k f, scored !! k = Some f →
      cost f
      = (potential_scale_ this * min_distance f
           * getResolution (costmap_ this)
         - gain_scale_ this * to_double (size f)
           * getResolution (costmap_ this)
         + weight (snd (search position p))
           * (distance (-2.91756) (-5.26284)
                (geometry_msgs.x (middle f)) (geometry_msgs.y (middle f))
              + normal_distribution 0 0.2 (random_device (rd_taken p + k)))
           * getResolution (costmap_ this))%float.
Proof.
  cbn zeta.
  destruct (worldToMap (costmap_ this) (geometry_msgs.x position)
              (geometry_msgs.y position)) as [[mx my]|] eqn:E.
  2: { exists []. unfold searchFrom. rewrite E. simpl.
       split_and!; [constructor|done|lia|done]. }
  destruct (searchFrom_inside position p mx my E) as (p1 & Hw & Hf & Hrd & ->).
  set (l := retained (getIndex (costmap_ this) mx my)).
  destruct (set_costs_spec random_device normal_distribution this position
              l p1) as (Hl & Hn & Hwt & _).
  exists (fst (set_costs random_device normal_distribution this position l p1)).
  simpl. split_and!; [|done| |].
  - rewrite Hl. apply Forall2_imap_same. intros k f. by destruct f.
  - rewrite Hn, Hl, length_imap. lia.
  - intros k f. rewrite Hl, list_lookup_imap, Hwt, Hrd.
    destruct (l !! k) as [g|] eqn:Eg; [|done]. intros [= <-].
    by destruct l.
Qed.

(** C9: two calls on the same map from the same position return the same
    list when the weight they score with is the same and the noise samples
    they draw are the same, whatever else differs in the two processes. *)
Theorem searchFrom_deterministic (random_device' : nat → Z)
    (position : Point) (p p' : Process) :
  weight (bias_update position (robot_human position) p)
  = weight (bias_update position (robot_human position) p') →
  (∀ k, normal_distribution mean std_dev (random_device (rd_taken p + k))
        = normal_distribution mean std_dev
            (random_device' (rd_taken p' + k))) →
  fst (search position p)
  = fst (searchFrom nhood4 nhood8 nearestCell random_device'
           normal_distribution this position p').
Proof.
  intros Hw Hnoise.
  destruct (worldToMap (costmap_ this) (geometry_msgs.x position)
              (geometry_msgs.y position)) as [[mx my]|] eqn:E.
  2: { unfold searchFrom. by rewrite E. }
  destruct (searchFrom_inside position p mx my E) as (p1 & Hw1 & Hf1 & Hr1 & ->).
  unfold searchFrom. rewrite E.
  set (q1 := if snd (search_start _ _ _) then _ else p').
  assert (weight q1 = weight p' ∧ flag q1 = flag p' ∧ rd_taken q1 = rd_taken p')
    as (Hw2 & Hf2 & Hr2) by (subst q1; by destruct (snd _)).
  set (l := search.frontier_list _).
  destruct (set_costs_spec random_device normal_distribution this position
              l p1) as (Hl & _).
  destruct (set_costs_spec random_device' normal_distribution this position
              l q1) as (Hl' & _).
  destruct (set_costs random_device' _ _ _ _ q1) as [l' q2].
  simpl in *. rewrite Hl, Hl'. f_equal. apply imap_ext. intros k f _. simpl.
  rewrite !bias_update_weight in *. rewrite Hf1, Hw1, Hf2, Hw2, Hr1, Hr2.
  by rewrite Hw, Hnoise.
Qed.

(** C4: the member cells of the returned frontiers, the initial cell of each
    followed by the cells of its points, are pairwise distinct: no cell of
    the grid belongs to two returned frontiers, nor twice to one.  The flag
    array is shared by all the regions of a call, and a flagged cell is
    refused by [isNewFrontierCell] ever after. *)
Theorem frontiers_share_no_cell (position : Point) (p : Process) :
  (search_members position p).*1 = fst (search position p) ∧
  Forall (λ r, initial r.1 :: points r.1 = cellPoint this <$> r.2)
    (search_members position p) ∧
  NoDup (concat (search_members position p).*2) ∧
  ∀ idx flags, flags !! idx = Some true →
    isNewFrontierCell nhood4 this idx flags = false.
Proof.
  split_and!; [| | |apply isNew_flagged].
  all: unfold searchFrom_members, searchFrom.
  all: destruct (worldToMap (costmap_ this) (geometry_msgs.x position)
                   (geometry_msgs.y position)) as [[mx my]|] eqn:E;
         [|by try constructor].
  all: set (p1 := if snd (search_start _ _ _) then _ else p).
  all: set (st := search_run nhood4 nhood8 nearestCell this
                    (getIndex (costmap_ this) mx my)).
  all: destruct (search_inv_run nhood4 nhood8 nearestCell this
                   (getIndex (costmap_ this) mx my)) as (Hnd & _ & Hpts).
  all: fold st in Hnd, Hpts.
  all: destruct (set_costs_spec random_device normal_distribution this
                   position (search.frontier_list st) p1) as (Hl & _).
  all: destruct (set_costs random_device _ _ _ _ p1) as [l q]; simpl in Hl.
  all: assert (Forall2 (λ f region,
                  initial f :: points f = cellPoint this <$> region)
                 l (search.members st)) as Hpts'
         by (rewrite Hl; by apply Forall2_imap_l).
  all: pose proof (Forall2_length _ _ _ Hpts') as Hlen.
  - simpl. rewrite (std_sort_fmap fst by_cost), fst_zip by lia. done.
  - rewrite std_sort_perm.
    by apply (Forall2_zip
                (λ f region, initial f :: points f = cellPoint this <$> region)).
  - rewrite std_sort_perm, snd_zip by lia. done.
Qed.





(** The loop accepts no cell when the predicate refuses every cell of the
    8-connected neighbourhood of the seed. *)
Lemma build_visits_refused (rx ry : float) (nbrs : list nat)
    (st : build.state) :
  Forall (λ nbr, isNewFrontierCell nhood4 this nbr (build.frontier_flag st)
                 = false) nbrs →
  foldl (build_visit nhood4 this rx ry) st nbrs = st.
Proof.
  induction 1 as [|nbr nbrs Hn _ IH]; [done|]. cbn [foldl].
  assert (build_visit nhood4 this rx ry st nbr = st) as ->; [|done].
  unfold build_visit. by rewrite Hn.
Qed.

Lemma build_run_lone_seed (initial_cell reference : nat) (flags : list bool) :
  Forall (λ nbr, isNewFrontierCell nhood4 this nbr flags = false)
    (nhood8 initial_cell (costmap_ this)) →
  build.cells (build_run nhood4 nhood8 this initial_cell reference flags) = [].
Proof.
  intros H. unfold build_run, build_init.
  destruct (cellToWorld this reference) as [rx ry].
  cbn [build_loop build.bfs]. rewrite build_visits_refused by done.
  by destruct (unset flags).
Qed.


(** X2: what the statistics of a returned frontier are, in terms of its
    points: the counter is one more than their number, the centroid is their
    sum divided by the counter, and the minimal distance and the middle are
    those of the point nearest to the cell of the robot (infinity and the
    default point when there is no point); the initial point enters neither
    the sums nor the comparison. *)
Theorem returned_statistics (position : Point) (p : Process) (mx my : nat) :
  worldToMap (costmap_ this) (geometry_msgs.x position)
    (geometry_msgs.y position) = Some (mx, my) →
  let reference := cellToWorld this (getIndex (costmap_ this) mx my) in
  Forall (λ f,
      size f = S (length (points f)) ∧
      centroid f
      = geometry_msgs.mkPoint (sum_x (points f) / to_double (size f))%float
          (sum_y (points f) / to_double (size f))%float 0 ∧
      (min_distance f, middle f)
      = nearest reference.1 reference.2 (points f))
    (fst (search position p)).
Proof.
  intros E reference.
  destruct (searchFrom_inside position p mx my E) as (p1 & _ & _ & _ & ->).
  simpl. rewrite std_sort_perm.
  destruct (set_costs_spec random_device normal_distribution this position
              (retained (getIndex (costmap_ this) mx my)) p1) as [-> _].
  apply Forall_forall. intros f (k & g & -> & Hg)%elem_of_lookup_imap. simpl.
  pose proof (retained_run nhood4 nhood8 nearestCell this
                (λ f, size f = S (length (points f)) ∧
                      centroid f
                      = geometry_msgs.mkPoint
                          (sum_x (points f) / to_double (size f))%float
                          (sum_y (points f) / to_double (size f))%float 0 ∧
                      (min_distance f, middle f)
                      = nearest reference.1 reference.2 (points f))
                (getIndex (costmap_ this) mx my)) as Hr.
  rewrite Forall_forall in Hr. apply Hr; [|by eapply list_elem_of_lookup_2].
  intros nbr fl f _. subst f.
  destruct (region_statistics nhood4 nhood8 this nbr
              (getIndex (costmap_ this) mx my) fl) as (Hs & _ & Hc & Hm).
  done.
Qed.
End Claims.

(** *** The sticky weight *)



(** *** The statistics of a region *)

(** C1 on the grid with one strip: the search returns one frontier of size
    2 whose only point is the second cell of the strip; its centroid is
    that point divided by 2, while the mean of the initial point and the
    point is [(3, 0.5)]. *)
Theorem centroid_omits_initial_cell :
  ∃ f, fst (explore (explorer 5 5 strip_map 1 1 1) 0 centre5 Process_start)
       = [f] ∧
    size f = 2 ∧
    initial f = geometry_msgs.mkPoint 2.5 0.5 0 ∧
    points f = [geometry_msgs.mkPoint 3.5 0.5 0] ∧
    centroid f = geometry_msgs.mkPoint 1.75 0.25 0 ∧
    mean_point (initial f :: points f) = geometry_msgs.mkPoint 3 0.5 0 ∧
    centroid f ≠ mean_point (initial f :: points f).
Proof.
  eexists. split; [vm_compute; reflexivity|].
  split_and!; try (vm_compute; reflexivity).
  intros H. apply (f_equal (λ q, Prim2SF (geometry_msgs.x q))) in H.
  vm_compute in H. discriminate.
Qed.

(** C3 on the grid with two strips: the frontier of the upper strip starts
    at the cell straight above the robot, at distance 2, yet its minimal
    distance and its middle are those of a cell at distance [sqrt 5]. *)
Theorem nearest_cell_skips_initial_cell :
  ∃ f g, fst (explore (explorer 5 5 strips_map 1 1 1) 0 centre5 Process_start)
         = [f; g] ∧
    initial f = geometry_msgs.mkPoint 2.5 4.5 0 ∧
    distance 2.5 2.5 (geometry_msgs.x (initial f)) (geometry_msgs.y (initial f))
    = 2%float ∧
    middle f = geometry_msgs.mkPoint 1.5 4.5 0 ∧
    min_distance f = PrimFloat.sqrt 5 ∧
    (distance 2.5 2.5 (geometry_msgs.x (initial f))
       (geometry_msgs.y (initial f)) <? min_distance f)%float = true.
Proof.
  do 2 eexists. split; [vm_compute; reflexivity|].
  split_and!; vm_compute; reflexivity.
Qed.

(** *** Instances on the concrete grid *)

(** C7, as stated, fails: with a potential scale of 0 the two lone seeds of
    the grid with two corners get a cost that is not a number, and no order
    of the returned list is non-decreasing. *)
Lemma unsorted_costs :
  ¬ Sorted (λ f1 f2, (cost f1 <=? cost f2)%float = true)
      (fst (explore (explorer 3 3 corners_map 0 1 1) 0 centre3 Process_start)).
Proof.
  intros H. vm_compute in H.
  inversion H as [|? ? _ Hd]; subst. inversion Hd; subst. discriminate.
Qed.

Lemma sorted_by_cost_strips :
  let this := explorer 5 5 strips_map 1 1 1 in
  Forall (λ f, is_nan (cost f) = false)
    (fst (explore this 0 centre5 Process_start)) ∧
  length (fst (explore this 0 centre5 Process_start)) = 2 ∧
  Sorted (λ f1 f2, (cost f1 <=? cost f2)%float = true)
    (fst (explore this 0 centre5 Process_start)).
Proof.
  split_and!.
  - vm_compute. repeat constructor.
  - vm_compute. reflexivity.
  - apply (sorted_by_cost grid_nhood4 grid_nhood8 grid_nearestCell
             fixed_device (fixed_noise 0)).
    vm_compute. repeat constructor.
Defined.

Lemma robot_out_of_bounds_corner :
  let this := explorer 3 3 corner_map 1 1 1 in
  let position := geometry_msgs.mkPoint (-1) (-1) 0 in
  worldToMap (costmap_ this) (geometry_msgs.x position)
    (geometry_msgs.y position) = None ∧
  explore this 0 position Process_start
  = ([], mkProcess 0 false 0
           [ROS_ERROR
              "Robot out of costmap bounds, cannot search for frontiers"]).
Proof.
  split; [vm_compute; reflexivity|].
  apply (robot_out_of_bounds grid_nhood4 grid_nhood8 grid_nearestCell
           fixed_device (fixed_noise 0)).
  vm_compute. reflexivity.
Defined.

(** On the grid with two strips two frontiers are retained, and both are
    scored. *)
Lemma cost_of_retained_frontiers_strips :
  let this := strips_explorer in
  let kept :=
    search.frontier_list
      (search_run grid_nhood4 grid_nhood8 grid_nearestCell this 12) in
  length kept = 2 ∧
  ∃ scored : list Frontier,
    Forall2 (λ f g, g = set_cost f (cost g)) kept scored ∧
    fst (explore this 0 centre5 Process_start) = std_sort by_cost scored ∧
    rd_taken (snd (explore this 0 centre5 Process_start)) = length scored ∧
    ∀ k f, scored !! k = Some f →
      cost f
      = (1 * min_distance f * 1 - 1 * to_double (size f) * 1
         + weight (snd (explore this 0 centre5 Process_start))
           * (distance (-2.91756) (-5.26284)
                (geometry_msgs.x (middle f)) (geometry_msgs.y (middle f))
              + fixed_noise 0 0 0.2 (fixed_device k))
           * 1)%float.
Proof.
  split; [vm_compute; reflexivity|].
  pose proof (cost_of_retained_frontiers grid_nhood4 grid_nhood8
                grid_nearestCell fixed_device (fixed_noise 0) strips_explorer
                centre5 Process_start) as H.
  cbn zeta in H.
  assert (worldToMap (costmap_ strips_explorer) (geometry_msgs.x centre5)
            (geometry_msgs.y centre5) = Some (2, 2)) as E
    by (vm_compute; reflexivity).
  rewrite E in H. exact H.
Defined.

Lemma searchFrom_deterministic_strips :
  let this := explorer 5 5 strips_map 1 1 1 in
  let later := mkProcess 0 true 7 [ROS_WARN "earlier"] in
  fst (explore this 0 centre5 Process_start)
  = fst (searchFrom grid_nhood4 grid_nhood8 grid_nearestCell
           (λ k, Z.of_nat k) (fixed_noise 0) this centre5 later).
Proof.
  apply (searchFrom_deterministic grid_nhood4 grid_nhood8 grid_nearestCell
           fixed_device (fixed_noise 0)).
  - vm_compute. reflexivity.
  - intros k. reflexivity.
Defined.


(** The lone seed of the grid with one corner is returned by the search
    when the minimum size equals the resolution. *)
Lemma lone_seed_returned :
  getResolution (costmap_ (explorer 3 3 corner_map 1 1 1)) = 1%float ∧
  min_frontier_size_ (explorer 3 3 corner_map 1 1 1) = 1%float ∧
  fst (explore (explorer 3 3 corner_map 1 1 1) 0 centre3 Process_start)
  = [set_cost lone_frontier infinity].
Proof. split_and!; vm_compute; reflexivity. Qed.

Lemma returned_statistics_strips :
  let this := explorer 5 5 strips_map 1 1 1 in
  let reference := cellToWorld this (getIndex (costmap_ this) 2 2) in
  worldToMap (costmap_ this) (geometry_msgs.x centre5)
    (geometry_msgs.y centre5) = Some (2, 2) ∧
  Forall (λ f,
      size f = S (length (points f)) ∧
      centroid f
      = geometry_msgs.mkPoint (sum_x (points f) / to_double (size f))%float
          (sum_y (points f) / to_double (size f))%float 0 ∧
      (min_distance f, middle f)
      = nearest reference.1 reference.2 (points f))
    (fst (explore this 0 centre5 Process_start)).
Proof.
  split; [vm_compute; reflexivity|].
  apply (returned_statistics grid_nhood4 grid_nhood8 grid_nearestCell
           fixed_device (fixed_noise 0) (explorer 5 5 strips_map 1 1 1)
           centre5 Process_start 2 2).
  vm_compute. reflexivity.
Defined.

(** *** Termination *)

(** X1: both loops run to completion.  With the fuel that [search_run] and
    [build_run] give them, one more than the number of flags still unset,
    the outward loop of [searchFrom] and the region loop of
    [buildNewFrontier] end on an empty queue, and fuel beyond the measure
    of a state changes nothing. *)
Theorem loops_run_to_completion (nhood4 nhood8 : nat → Costmap2D → list nat)
    (nearestCell : nat → Z → Costmap2D → option nat) (this : FrontierSearch) :
  (∀ pos, search.bfs (search_run nhood4 nhood8 nearestCell this pos) = []) ∧
  (∀ initial_cell reference flags,
     build.bfs (build_run nhood4 nhood8 this initial_cell reference flags)
     = []) ∧
  (∀ pos fuel extra st, search_measure st ≤ fuel →
     search_loop nhood4 nhood8 this pos (fuel + extra) st
     = search_loop nhood4 nhood8 this pos fuel st) ∧
  (∀ rx ry fuel extra st, build_measure st ≤ fuel →
     build_loop nhood4 nhood8 this rx ry (fuel + extra) st
     = build_loop nhood4 nhood8 this rx ry fuel st).
Proof.
  split_and!.
  - apply search_run_done.
  - apply build_run_done.
  - apply search_loop_more.
  - apply build_loop_more.
Qed.

(** *** The functions on the concrete grid *)

(** The scenario of the specification: five by five cells, a strip of two
    unknown cells on an edge, the robot in the middle and far from the point
    to avoid.  One frontier of size 2 is returned, scored with weight 0. *)
Lemma strip_scenario :
  ∃ f, explore (explorer 5 5 strip_map 1 1 1) 0 centre5 Process_start
       = ([f], mkProcess 0 false 1 []) ∧
    size f = 2 ∧
    min_distance f = PrimFloat.sqrt 5 ∧
    cost f = (1 * PrimFloat.sqrt 5 * 1 - 1 * 2 * 1
              + 0 * (distance human_x human_y 3.5 0.5 + 0) * 1)%float ∧
    large_enough (explorer 5 5 strip_map 1 1 2) f = true ∧
    large_enough (explorer 5 5 strip_map 1 1 2.5) f = false.
Proof.
  eexists. split; [vm_compute; reflexivity|].
  split_and!; vm_compute; reflexivity.
Qed.

(** The member cells of the two frontiers of the grid with two strips, in
    the order of the returned list. *)
Lemma strips_members :
  (searchFrom_members grid_nhood4 grid_nhood8 grid_nearestCell fixed_device
     (fixed_noise 0) (explorer 5 5 strips_map 1 1 1) centre5
     Process_start).*2
  = [[22; 21; 23]; [2; 3]].
Proof. vm_compute. reflexivity. Qed.

(** A robot that stands on an unknown cell: the traversal starts from the
    nearest clear cell. *)
Lemma start_on_unknown_cell :
  search_start grid_nearestCell (explorer 3 3 corner_map 1 1 1) 2 = (1, false) ∧
  length (fst (explore (explorer 3 3 corner_map 1 1 1) 0
                 (geometry_msgs.mkPoint 2.5 0.5 0) Process_start)) = 1.
Proof. split; vm_compute; reflexivity. Qed.

(** ** Further properties of the code *)

(** *** The frontier-cell predicate *)

Section PredicateFacts.
Context (nhood4 : nat → Costmap2D → list nat) (this : FrontierSearch).

Local Abbreviation isNew := (isNewFrontierCell nhood4 this).

(** The predicate accepts exactly the frontier cells whose flag is unset. *)
Lemma isNew_spec (idx : nat) (flags : list bool) :
  isNew idx flags = true ↔
  frontier_cell nhood4 this idx ∧ flags !! idx = Some false.
Proof.
  unfold isNewFrontierCell, frontier_cell.
  destruct (map_ this !! idx) as [c|];
    [|split; [done|intros [[? _] _]; done]].
  destruct (flags !! idx) as [[]|]; [| |split; [done|intros [_ ?]; done]].
  { rewrite orb_true_r. split; [done|intros [_ ?]; done]. }
  rewrite orb_false_r. destruct (c =? NO_INFORMATION)%Z eqn:E; simpl.
  - apply Z.eqb_eq in E as ->. rewrite existsb_exists. split.
    + intros (nbr & Hin & Hv). split_and!; [done| |done].
      exists nbr. split; [by apply list_elem_of_In|].
      destruct (map_ this !! nbr) as [v|]; [|done].
      by apply Z.eqb_eq in Hv as ->.
    + intros [[_ (nbr & Hin & Hv)] _]. exists nbr.
      split; [by apply list_elem_of_In|]. by rewrite Hv.
  - apply Z.eqb_neq in E. split; [done|]. intros [[[= ->] _] _]. done.
Qed.

(** Setting flags never makes a cell acceptable. *)
Lemma isNew_mono (idx : nat) (flags flags' : list bool) :
  (flags' !! idx = Some false → flags !! idx = Some false) →
  isNew idx flags = false → isNew idx flags' = false.
Proof.
  intros Hm Hf. destruct (isNew idx flags') eqn:E; [|done].
  apply isNew_spec in E as [Hc E]. apply Hm in E.
  assert (isNew idx flags = true) by (by apply isNew_spec). congruence.
Qed.

Lemma isNew_insert (idx c : nat) (flags : list bool) :
  isNew idx flags = false → isNew idx (<[c := true]> flags) = false.
Proof. apply isNew_mono. by intros [_ ?]%insert_true_unset. Qed.
End PredicateFacts.

(** *** Flag arrays, continued *)

Lemma set_flags_snoc (flags : list bool) (cells : list nat) (c : nat) :
  set_flags flags (cells ++ [c]) = <[c := true]> (set_flags flags cells).
Proof. unfold set_flags. by rewrite foldl_app. Qed.

Lemma set_flags_length (flags : list bool) (cells : list nat) :
  length (set_flags flags cells) = length flags.
Proof.
  induction cells as [|c cells IH] using rev_ind; [done|].
  by rewrite set_flags_snoc, length_insert.
Qed.

Lemma set_flags_other (flags : list bool) (cells : list nat) (c : nat) :
  c ∉ cells → set_flags flags cells !! c = flags !! c.
Proof.
  induction cells as [|d cells IH] using rev_ind; [done|].
  intros [Hc Hd]%not_elem_of_app. rewrite not_elem_of_cons in Hd.
  destruct Hd as [Hd _].
  rewrite set_flags_snoc, list_lookup_insert_ne by (by intros ->).
  by apply IH.
Qed.

(** *** The region loop, continued *)

Section RegionFacts.
Context (nhood4 nhood8 : nat → Costmap2D → list nat) (this : FrontierSearch).

Local Abbreviation isNew := (isNewFrontierCell nhood4 this).
Local Abbreviation visit := (build_visit nhood4 this).
Local Abbreviation loop := (build_loop nhood4 nhood8 this).
Local Abbreviation run := (build_run nhood4 nhood8 this).
Local Abbreviation around := (refused_around nhood4 nhood8 this).
Local Abbreviation closed := (build_closed nhood4 nhood8 this).
Local Abbreviation linked := (build_linked nhood8 this).

(** The flags of the loop are the flags on entry with those of the accepted
    cells set. *)
Lemma build_flags_visit (rx ry : float) (flags0 : list bool)
    (st : build.state) (nbr : nat) :
  build.frontier_flag st = set_flags flags0 (build.cells st) →
  build.frontier_flag (visit rx ry st nbr)
  = set_flags flags0 (build.cells (visit rx ry st nbr)).
Proof.
  intros H. destruct (build_visit_cases nhood4 this rx ry st nbr)
    as [[_ ->]|(_ & -> & _ & -> & _)]; [done|].
  by rewrite set_flags_snoc, H.
Qed.

Lemma build_flags_visits (rx ry : float) (flags0 : list bool)
    (nbrs : list nat) (st : build.state) :
  build.frontier_flag st = set_flags flags0 (build.cells st) →
  build.frontier_flag (foldl (visit rx ry) st nbrs)
  = set_flags flags0 (build.cells (foldl (visit rx ry) st nbrs)).
Proof.
  revert st. induction nbrs as [|nbr nbrs IH]; intros st H; simpl; [done|].
  by apply IH, build_flags_visit.
Qed.

Lemma build_flags_loop (rx ry : float) (flags0 : list bool) (fuel : nat)
    (st : build.state) :
  build.frontier_flag st = set_flags flags0 (build.cells st) →
  build.frontier_flag (loop rx ry fuel st)
  = set_flags flags0 (build.cells (loop rx ry fuel st)).
Proof.
  revert st. induction fuel as [|fuel IH]; intros st H; simpl; [done|].
  destruct (build.bfs st) as [|idx rest]; [done|].
  by apply IH, build_flags_visits.
Qed.

Lemma build_flags_run (initial_cell reference : nat) (flags : list bool) :
  build.frontier_flag (run initial_cell reference flags)
  = set_flags flags (build.cells (run initial_cell reference flags)).
Proof.
  unfold build_run. destruct (cellToWorld this reference) as [rx ry].
  by apply build_flags_loop.
Qed.

(** X4: [buildNewFrontier] changes the shared flag array by setting the
    flags of the cells it appends as points, and in no other way: the array
    keeps its length, the flag of every other cell is what it was, no flag
    is cleared, and each cell it appends was unset on entry. *)
Theorem region_flags_frame (initial_cell reference : nat) (flags : list bool) :
  let cells := build.cells (run initial_cell reference flags) in
  let flags' :=
    snd (buildNewFrontier nhood4 nhood8 this initial_cell reference flags) in
  flags' = set_flags flags cells ∧
  length flags' = length flags ∧
  (∀ c, c ∉ cells → flags' !! c = flags !! c) ∧
  (∀ c, flags !! c = Some true → flags' !! c = Some true) ∧
  (∀ c, c ∈ cells → flags !! c = Some false ∧ flags' !! c = Some true).
Proof.
  cbn zeta. unfold buildNewFrontier. cbn [snd].
  pose proof (build_inv_run nhood4 nhood8 this initial_cell reference flags)
    as (_ & Hc & Hkeep & _).
  rewrite build_flags_run in Hc, Hkeep |- *. split_and!; [done| | |done|done].
  - apply set_flags_length.
  - intros c. apply set_flags_other.
Qed.

(** Closure: a member of the region is still queued, or nothing around it
    is acceptable any more. *)
Lemma around_insert (flags : list bool) (c d : nat) :
  around flags c → around (<[d := true]> flags) c.
Proof.
  unfold refused_around. intros H. eapply Forall_impl; [done|].
  intros nbr. apply isNew_insert.
Qed.

Lemma build_closed_visits (rx ry : float) (initial_cell idx : nat)
    (nbrs seen : list nat) (st : build.state) :
  closed initial_cell (idx :: build.bfs st) st →
  Forall (λ nbr, isNew nbr (build.frontier_flag st) = false) seen →
  let st' := foldl (visit rx ry) st nbrs in
  closed initial_cell (idx :: build.bfs st') st' ∧
  Forall (λ nbr, isNew nbr (build.frontier_flag st') = false) (seen ++ nbrs).
Proof.
  revert seen st. induction nbrs as [|nbr nbrs IH]; intros seen st Hc Hs.
  { simpl. by rewrite app_nil_r. }
  cbn zeta. cbn [foldl]. rewrite cons_middle, (assoc_L (++) seen [nbr] nbrs).
  apply IH; clear IH.
  - destruct (build_visit_cases nhood4 this rx ry st nbr)
      as [[_ ->]|(E & Hf & Hq & Hcs & _)]; [done|].
    intros c. rewrite Hf, Hq, Hcs.
    rewrite app_comm_cons, elem_of_app, list_elem_of_singleton.
    intros [Hin| ->].
    + destruct (Hc c Hin) as [Hp|Ha].
      * left. rewrite app_comm_cons. apply elem_of_app. by left.
      * right. by apply around_insert.
    + left. rewrite app_comm_cons. apply elem_of_app. right.
      by apply list_elem_of_singleton.
  - apply Forall_app. split.
    + destruct (build_visit_cases nhood4 this rx ry st nbr)
        as [[_ ->]|(E & -> & _)]; [done|].
      eapply Forall_impl; [done|]. intros c. apply isNew_insert.
    + constructor; [|constructor].
      destruct (build_visit_cases nhood4 this rx ry st nbr)
        as [[E ->]|(E & -> & _)]; [done|].
      apply isNew_flagged, list_lookup_insert_eq.
      apply isNew_unset in E as [_ E]. by eapply lookup_lt_Some.
Qed.

Lemma build_closed_loop (rx ry : float) (initial_cell fuel : nat)
    (st : build.state) :
  closed initial_cell (build.bfs st) st →
  closed initial_cell (build.bfs (loop rx ry fuel st)) (loop rx ry fuel st).
Proof.
  revert st. induction fuel as [|fuel IH]; intros st H; simpl; [done|].
  destruct (build.bfs st) as [|idx rest] eqn:E; [by rewrite E|].
  apply IH.
  destruct (build_closed_visits rx ry initial_cell idx
              (nhood8 idx (costmap_ this)) []
              (build.mk (build.output st) (build.frontier_flag st) rest
                 (build.cells st))) as [Hc Hs]; [done|constructor|].
  intros c Hin. destruct (Hc c Hin) as [[->|Hq]%elem_of_cons|Ha]; auto.
Qed.

(** X3: when [buildNewFrontier] returns, the region is closed: in the
    8-connected neighbourhood of the initial cell and of every cell appended
    as a point, the predicate accepts no cell any more. *)
Theorem region_is_closed (initial_cell reference : nat) (flags : list bool) :
  let cells := build.cells (run initial_cell reference flags) in
  let flags' :=
    snd (buildNewFrontier nhood4 nhood8 this initial_cell reference flags) in
  Forall (λ c, Forall (λ nbr, isNew nbr flags' = false)
                 (nhood8 c (costmap_ this)))
    (initial_cell :: cells).
Proof.
  cbn zeta. unfold buildNewFrontier. cbn [snd].
  pose proof (build_run_done nhood4 nhood8 this initial_cell reference flags)
    as Hdone.
  revert Hdone. unfold build_run.
  destruct (cellToWorld this reference) as [rx ry]. intros Hdone.
  pose proof (build_closed_loop rx ry initial_cell (S (unset flags))
                (build_init this initial_cell flags)) as Hc.
  rewrite Hdone in Hc. apply Forall_forall. intros c Hin.
  destruct Hc with c as [[]%elem_of_nil|Ha]; [|done|done].
  intros d [->|[]%elem_of_nil]%elem_of_cons. left. by left.
Qed.

(** Connectivity. *)
Lemma build_linked_visits (rx ry : float) (initial_cell idx : nat)
    (nbrs : list nat) (st : build.state) :
  idx ∈ initial_cell :: build.cells st →
  (∀ nbr, nbr ∈ nbrs → nbr ∈ nhood8 idx (costmap_ this)) →
  linked initial_cell st →
  let st' := foldl (visit rx ry) st nbrs in
  linked initial_cell st' ∧ idx ∈ initial_cell :: build.cells st'.
Proof.
  revert st. induction nbrs as [|nbr nbrs IH]; intros st Hidx Hn Hl; [done|].
  cbn zeta. cbn [foldl].
  assert (Hnbr : nbr ∈ nhood8 idx (costmap_ this)) by (apply Hn; by left).
  assert (Hn' : ∀ n, n ∈ nbrs → n ∈ nhood8 idx (costmap_ this))
    by (intros n ?; apply Hn; by right).
  destruct (build_visit_cases nhood4 this rx ry st nbr)
    as [[_ ->]|(_ & _ & Hq & Hcs & _)]; [by apply IH|].
  destruct Hl as [Hb Hk]. apply IH; [| done |split].
  - rewrite Hcs, app_comm_cons. apply elem_of_app. by left.
  - intros c. rewrite Hq, Hcs, app_comm_cons, !elem_of_app.
    intros [Hc| Hc]; [left; by apply Hb|by right].
  - intros k c. rewrite Hcs. intros Hlk.
    destruct (decide (k < length (build.cells st))) as [Hlt|Hge].
    + rewrite lookup_app_l in Hlk by done.
      destruct (Hk k c Hlk) as (d & Hd & Hc). exists d. split; [|done].
      by rewrite take_app_le by lia.
    + apply lookup_lt_Some in Hlk as Hlen. rewrite length_app in Hlen.
      simpl in Hlen. assert (k = length (build.cells st)) as -> by lia.
      rewrite list_lookup_middle in Hlk by done. injection Hlk as <-.
      exists idx. split; [|done]. by rewrite take_app_length.
Qed.

Lemma build_linked_loop (rx ry : float) (initial_cell fuel : nat)
    (st : build.state) :
  linked initial_cell st → linked initial_cell (loop rx ry fuel st).
Proof.
  revert st. induction fuel as [|fuel IH]; intros st H; simpl; [done|].
  destruct (build.bfs st) as [|idx rest] eqn:E; [done|].
  apply IH.
  apply (build_linked_visits rx ry initial_cell idx
           (nhood8 idx (costmap_ this))
           (build.mk (build.output st) (build.frontier_flag st) rest
              (build.cells st))); [| done |].
  - destruct H as [Hb _]. apply Hb. rewrite E. by left.
  - destruct H as [Hb Hk]. split; [|done]. intros c Hc. apply Hb.
    rewrite E. by right.
Qed.

(** X5: a region is connected: every cell that [buildNewFrontier] appends
    as a point lies in the 8-connected neighbourhood of the initial cell or
    of a cell appended before it. *)
Theorem region_is_connected (initial_cell reference : nat)
    (flags : list bool) (k c : nat) :
  build.cells (build_run nhood4 nhood8 this initial_cell reference flags) !! k
  = Some c →
  ∃ d, d ∈ initial_cell
           :: take k (build.cells
                        (build_run nhood4 nhood8 this initial_cell reference
                           flags)) ∧
       c ∈ nhood8 d (costmap_ this).
Proof.
  unfold build_run. destruct (cellToWorld this reference) as [rx ry].
  apply (build_linked_loop rx ry initial_cell (S (unset flags))
           (build_init this initial_cell flags)).
  split; [|done]. simpl. by intros d Hd.
Qed.

(** Every accepted cell is a frontier cell. *)
Lemma build_cells_visits (rx ry : float) (nbrs : list nat)
    (st : build.state) :
  Forall (frontier_cell nhood4 this) (build.cells st) →
  Forall (frontier_cell nhood4 this)
    (build.cells (foldl (visit rx ry) st nbrs)).
Proof.
  revert st. induction nbrs as [|nbr nbrs IH]; intros st H; simpl; [done|].
  apply IH. destruct (build_visit_cases nhood4 this rx ry st nbr)
    as [[_ ->]|(E & _ & _ & -> & _)]; [done|].
  apply Forall_app. split; [done|]. constructor; [|constructor].
  by apply isNew_spec in E as [? _].
Qed.

Lemma build_cells_run (initial_cell reference : nat) (flags : list bool) :
  Forall (frontier_cell nhood4 this)
    (build.cells (run initial_cell reference flags)).
Proof.
  unfold build_run. destruct (cellToWorld this reference) as [rx ry].
  generalize (S (unset flags)). intros fuel.
  assert (Forall (frontier_cell nhood4 this)
            (build.cells (build_init this initial_cell flags))) as H
    by constructor.
  revert H. generalize (build_init this initial_cell flags).
  induction fuel as [|fuel IH]; intros st H; simpl; [done|].
  destruct (build.bfs st) as [|idx rest]; [done|].
  by apply IH, build_cells_visits.
Qed.
End RegionFacts.

(** *** The outward loop, continued *)

Section TraversalFacts.
Context (nhood4 nhood8 : nat → Costmap2D → list nat)
  (nearestCell : nat → Z → Costmap2D → option nat) (this : FrontierSearch).

Local Abbreviation isNew := (isNewFrontierCell nhood4 this).
Local Abbreviation run := (build_run nhood4 nhood8 this).
Local Abbreviation visit := (search_visit nhood4 nhood8 this).
Local Abbreviation loop := (search_loop nhood4 nhood8 this).

(** One neighbour of the outward loop, with what decides each case. *)
Lemma search_visit_full (pos idx : nat) (st : search.state) (nbr : nat) :
  (∃ vn vi,
     map_ this !! nbr = Some vn ∧ map_ this !! idx = Some vi ∧
     (vn ≤ vi)%Z ∧ search.visited_flag st !! nbr = Some false ∧
     visit pos idx st nbr
     = search.mk (search.frontier_list st) (search.frontier_flag st)
         (<[nbr := true]> (search.visited_flag st)) (search.bfs st ++ [nbr])
         (search.members st)) ∨
  (isNew nbr (search.frontier_flag st) = true ∧
   let b := run nbr pos (<[nbr := true]> (search.frontier_flag st)) in
   let f := average (build.output b) in
   (large_enough this f = true ∧
    visit pos idx st nbr
    = search.mk (search.frontier_list st ++ [f]) (build.frontier_flag b)
        (search.visited_flag st) (search.bfs st)
        (search.members st ++ [nbr :: build.cells b])) ∨
   (large_enough this f = false ∧
    visit pos idx st nbr
    = search.mk (search.frontier_list st) (build.frontier_flag b)
        (search.visited_flag st) (search.bfs st) (search.members st))) ∨
  (isNew nbr (search.frontier_flag st) = false ∧ visit pos idx st nbr = st).
Proof.
  unfold search_visit, buildNewFrontier, large_enough.
  destruct (map_ this !! nbr) as [vn|];
    [destruct (map_ this !! idx) as [vi|];
      [destruct (search.visited_flag st !! nbr) as [[]|] eqn:Ev|]|].
  all: rewrite ?andb_false_r, ?andb_true_r.
  2: destruct (vn <=? vi)%Z eqn:Ele;
       [left; exists vn, vi; by apply Z.leb_le in Ele|].
  all: destruct (isNew nbr (search.frontier_flag st)); [|right; right; done].
  all: right; left; split; [done|]; simpl.
  all: destruct (_ <=? _)%float; [left|right]; done.
Qed.

(** An invariant [I] of the outward loop may be proved through a property
    [J idx seen] of the [for] over the neighbours of the popped cell [idx],
    [seen] being those already handled. *)
Section LoopInvariant.
Context (pos : nat) (I : search.state → Prop)
  (J : nat → list nat → search.state → Prop).
Hypothesis J_pop : ∀ st idx rest,
  search.bfs st = idx :: rest → I st → J idx [] (search_pop st).
Hypothesis J_visit : ∀ idx seen st nbr,
  nbr ∈ nhood4 idx (costmap_ this) →
  J idx seen st → J idx (seen ++ [nbr]) (visit pos idx st nbr).
Hypothesis J_close : ∀ idx st, J idx (nhood4 idx (costmap_ this)) st → I st.

Lemma search_visits_invariant (idx : nat) (nbrs seen : list nat)
    (st : search.state) :
  (∀ nbr, nbr ∈ nbrs → nbr ∈ nhood4 idx (costmap_ this)) →
  J idx seen st → J idx (seen ++ nbrs) (foldl (visit pos idx) st nbrs).
Proof using J_visit.
  revert seen st. induction nbrs as [|nbr nbrs IH]; intros seen st Hn H.
  { simpl. by rewrite app_nil_r. }
  cbn [foldl]. rewrite cons_middle, (assoc_L (++) seen [nbr] nbrs).
  apply IH; [intros n ?; apply Hn; by right|].
  apply J_visit; [apply Hn; by left|done].
Qed.

Lemma search_loop_invariant (fuel : nat) (st : search.state) :
  I st → I (loop pos fuel st).
Proof using J_pop J_visit J_close.
  revert st. induction fuel as [|fuel IH]; intros st H; simpl; [done|].
  destruct (search.bfs st) as [|idx rest] eqn:E; [done|].
  apply IH, (J_close idx).
  replace (search.mk (search.frontier_list st) (search.frontier_flag st)
             (search.visited_flag st) rest (search.members st))
    with (search_pop st) by (unfold search_pop; by rewrite E).
  apply (search_visits_invariant idx (nhood4 idx (costmap_ this)) []
           (search_pop st)); [done|].
  by apply (J_pop st idx rest).
Qed.
End LoopInvariant.
End TraversalFacts.

Section TraversalResults.
Context (nhood4 nhood8 : nat → Costmap2D → list nat)
  (nearestCell : nat → Z → Costmap2D → option nat) (this : FrontierSearch).

Local Abbreviation isNew := (isNewFrontierCell nhood4 this).
Local Abbreviation run := (build_run nhood4 nhood8 this).
Local Abbreviation visit := (search_visit nhood4 nhood8 this).
Local Abbreviation loop := (search_loop nhood4 nhood8 this).
Local Abbreviation traversal := (search_run nhood4 nhood8 nearestCell this).
Local Abbreviation start pos := (search_start nearestCell this pos).1.

(** The flags on entry of the outward loop. *)
Lemma visited_start (front n c : nat) :
  <[front := true]> (replicate n false) !! c = Some true → c = front.
Proof.
  intros H. destruct (decide (front = c)) as [|Hne]; [done|].
  rewrite list_lookup_insert_ne in H by done.
  by apply lookup_replicate in H as [? _].
Qed.

(** Building a region after flagging its seed only sets flags. *)
Lemma region_unset (nbr pos : nat) (flags : list bool) (c : nat) :
  build.frontier_flag (run nbr pos (<[nbr := true]> flags)) !! c = Some false →
  flags !! c = Some false.
Proof.
  destruct (build_inv_run nhood4 nhood8 this nbr pos (<[nbr := true]> flags))
    as (_ & _ & _ & Hmono & _).
  by intros [_ ?]%Hmono%insert_true_unset.
Qed.

Lemma region_seed_set (nbr pos : nat) (flags : list bool) :
  flags !! nbr = Some false →
  build.frontier_flag (run nbr pos (<[nbr := true]> flags)) !! nbr = Some true.
Proof.
  intros H.
  destruct (build_inv_run nhood4 nhood8 this nbr pos (<[nbr := true]> flags))
    as (_ & _ & Hkeep & _).
  apply Hkeep, list_lookup_insert_eq. by eapply lookup_lt_Some.
Qed.

(** The traversal descends. *)
Lemma search_descending_run (pos : nat) :
  search_descending this (start pos) (traversal pos).
Proof.
  unfold search_run. set (front := start pos).
  apply (search_loop_invariant nhood4 nhood8 this pos
           (search_descending this front)
           (λ idx _ st,
              search_descending this front st ∧
              ∀ v v0, map_ this !! idx = Some v →
                      map_ this !! front = Some v0 → (v ≤ v0)%Z)).
  - intros st idx rest E H. split.
    + intros c v v0 [Hv|Hq]; apply H; [by left|].
      right. unfold search_pop in Hq. simpl in Hq. rewrite E in Hq |- *.
      by right.
    + intros v v0. apply H. right. rewrite E. by left.
  - intros idx _ st nbr _ [H Hidx]. split; [|done].
    destruct (search_visit_full nhood4 nhood8 this pos idx st nbr)
      as [(vn & vi & Hn & Hi & Hle & _ & ->)
         |[[_ [[_ ->]|[_ ->]]]|[_ ->]]]; try done.
    intros c v v0 Hc Hv Hf. simpl in Hc.
    destruct (decide (c = nbr)) as [->|Hne].
    + rewrite Hn in Hv. injection Hv as <-.
      specialize (Hidx vi v0 Hi Hf). lia.
    + apply (H c v v0); [|done|done].
      destruct Hc as [Hc|[Hc|Hc%list_elem_of_singleton]%elem_of_app];
        [|by right|done].
      left. by rewrite list_lookup_insert_ne in Hc.
  - by intros idx st [H _].
  - intros c v v0 [Hc%visited_start|Hc%list_elem_of_singleton] Hv Hf;
      subst c; rewrite Hv in Hf; injection Hf as <-; lia.
Qed.

(** X7: the outward traversal only descends: every cell it visits has a
    cost that is at most the cost of the cell it started from, the nearest
    clear cell or else the cell of the robot. *)
Theorem traversal_descends (pos c : nat) (v v0 : Z) :
  search.visited_flag (traversal pos) !! c = Some true →
  map_ this !! c = Some v → map_ this !! start pos = Some v0 →
  (v ≤ v0)%Z.
Proof. intros H. apply (search_descending_run pos). by left. Qed.

(** Completeness of the detection. *)
Lemma settled_mono (flags flags' : list bool) (c : nat) :
  (∀ d, flags' !! d = Some false → flags !! d = Some false) →
  settled nhood4 this flags c → settled nhood4 this flags' c.
Proof.
  intros Hm H v Hv Hlt. eapply Forall_impl; [by apply (H v)|].
  intros nbr. apply isNew_mono, Hm.
Qed.

Lemma search_complete_run (pos : nat) :
  search_complete nhood4 this [] (traversal pos).
Proof.
  rewrite <- (search_run_done nhood4 nhood8 nearestCell this pos).
  unfold search_run.
  apply (search_loop_invariant nhood4 nhood8 this pos
           (λ st, search_complete nhood4 this (search.bfs st) st)
           (λ idx seen st,
              search_complete nhood4 this (idx :: search.bfs st) st ∧
              ∀ v, map_ this !! idx = Some v → (v < NO_INFORMATION)%Z →
                   Forall (λ nbr, isNew nbr (search.frontier_flag st) = false)
                     seen)).
  - intros st idx rest E H. split; [|intros; constructor].
    intros c Hc. simpl. destruct (H c Hc) as [Hq|Hs]; [|by right].
    left. by rewrite E in Hq |- *.
  - intros idx seen st nbr _ [H Hseen].
    destruct (search_visit_full nhood4 nhood8 this pos idx st nbr)
      as [(vn & vi & Hn & Hi & Hle & Hv & ->)|[[E Hb]|[E ->]]].
    + split; simpl.
      * intros c Hc. destruct (decide (nbr = c)) as [->|Hne].
        { left. right. apply elem_of_app. right.
          by apply list_elem_of_singleton. }
        unfold search_complete in H. cbn [search.visited_flag] in Hc.
        rewrite list_lookup_insert_ne in Hc by done.
        destruct (H c Hc) as [[->|Hq]%elem_of_cons|Hs]; [| |by right].
        { left. by left. }
        left. right. apply elem_of_app. by left.
      * intros v Hv' Hlt. apply Forall_app. split; [by apply (Hseen v)|].
        constructor; [|constructor].
        destruct (isNew nbr (search.frontier_flag st)) eqn:E; [|done].
        apply isNew_unset in E as [E _]. rewrite Hn in E. injection E as ->.
        rewrite Hi in Hv'. injection Hv' as <-. lia.
    + apply isNew_unset in E as [_ E].
      assert (Hm : ∀ d,
                build.frontier_flag
                  (run nbr pos (<[nbr := true]> (search.frontier_flag st))) !! d
                = Some false → search.frontier_flag st !! d = Some false)
        by (intros d; apply region_unset).
      assert (Hn : isNew nbr
                     (build.frontier_flag
                        (run nbr pos
                           (<[nbr := true]> (search.frontier_flag st))))
                   = false)
        by (by apply isNew_flagged, region_seed_set).
      simpl in Hb. destruct Hb as [[_ ->]|[_ ->]]; simpl.
      all: split;
        [intros c Hc; destruct (H c Hc) as [Hq|Hs]; [by left|right];
         by apply (settled_mono (search.frontier_flag st))
        |intros v Hv Hlt; apply Forall_app; split;
         [eapply Forall_impl; [by apply (Hseen v)|];
          intros d; apply isNew_mono, Hm
         |by repeat constructor]].
    + split; [done|]. intros v Hv Hlt. apply Forall_app.
      split; [by apply (Hseen v)|by repeat constructor].
  - intros idx st [H Hseen] c Hc.
    destruct (H c Hc) as [[->|Hq]%elem_of_cons|Hs]; [|by left|by right].
    right. intros v. apply Hseen.
  - intros c Hc%visited_start. left. subst c. by left.
Qed.

(** X8: the detection is complete around the known cells of the traversal:
    when [searchFrom]'s loop ends, no cell of the 4-connected neighbourhood
    of a visited cell that is not unknown is accepted by the predicate any
    more, that is, every frontier cell there has been flagged and belongs
    to a region that was built. *)
Theorem detection_is_complete (pos c : nat) (v : Z) :
  search.visited_flag (traversal pos) !! c = Some true →
  map_ this !! c = Some v → (v < NO_INFORMATION)%Z →
  Forall (λ nbr, isNew nbr (search.frontier_flag (traversal pos)) = false)
    (nhood4 c (costmap_ this)).
Proof.
  intros Hc Hv Hlt.
  destruct (search_complete_run pos c Hc) as [[]%elem_of_nil|Hs].
  by apply (Hs v).
Qed.
End TraversalResults.

(** *** The regions of a search *)

Lemma sum_list_concat (l : list (list nat)) :
  length (concat l) = sum_list (length <$> l).
Proof.
  induction l as [|a l IH]; [done|]. simpl. by rewrite length_app, IH.
Qed.

(** Distinct numbers below [n] are at most [n]. *)
Lemma NoDup_below (l : list nat) (n : nat) :
  NoDup l → Forall (λ c, c < n) l → length l ≤ n.
Proof.
  intros Hnd Hl. rewrite <- (length_seq n 0). apply submseteq_length.
  apply NoDup_submseteq; [done|]. intros c Hc.
  rewrite Forall_forall in Hl. apply elem_of_seq. specialize (Hl c Hc). lia.
Qed.

Section RegionsOfSearch.
Context (nhood4 nhood8 : nat → Costmap2D → list nat)
  (nearestCell : nat → Z → Costmap2D → option nat)
  (random_device : nat → Z)
  (normal_distribution : float → float → Z → float) (this : FrontierSearch).

Local Abbreviation isNew := (isNewFrontierCell nhood4 this).
Local Abbreviation run := (build_run nhood4 nhood8 this).
Local Abbreviation visit := (search_visit nhood4 nhood8 this).
Local Abbreviation traversal := (search_run nhood4 nhood8 nearestCell this).
Local Abbreviation start pos := (search_start nearestCell this pos).1.
Local Abbreviation search :=
  (searchFrom nhood4 nhood8 nearestCell random_device normal_distribution this).
Local Abbreviation search_members :=
  (searchFrom_members nhood4 nhood8 nearestCell random_device
     normal_distribution this).

(** The list that [searchFrom] returns and its member cells, in terms of
    the state in which the outward loop ends. *)
Lemma searchFrom_regions (position : Point) (p : Process) :
  (worldToMap (costmap_ this) (geometry_msgs.x position)
     (geometry_msgs.y position) = None ∧
   search_members position p = [] ∧ fst (search position p) = []) ∨
  (∃ mx my l,
     worldToMap (costmap_ this) (geometry_msgs.x position)
       (geometry_msgs.y position) = Some (mx, my) ∧
     let st := traversal (getIndex (costmap_ this) mx my) in
     (search_members position p).*2 ≡ₚ search.members st ∧
     fst (search position p) ≡ₚ l ∧
     Forall2 (λ f g, g = set_cost f (cost g)) (search.frontier_list st) l).
Proof.
  unfold searchFrom_members, searchFrom.
  destruct (worldToMap (costmap_ this) (geometry_msgs.x position)
              (geometry_msgs.y position)) as [[mx my]|] eqn:E; [right|by left].
  exists mx, my.
  set (p1 := if snd (search_start _ _ _) then _ else p).
  destruct (search_inv_run nhood4 nhood8 nearestCell this
              (getIndex (costmap_ this) mx my)) as (_ & _ & Hpts).
  apply Forall2_length in Hpts.
  destruct (set_costs_spec random_device normal_distribution this position
              (search.frontier_list
                 (traversal (getIndex (costmap_ this) mx my))) p1)
    as (Hl & _).
  destruct (set_costs random_device _ _ _ _ p1) as [l q]; simpl in Hl.
  exists l. cbn zeta. split_and!; [done| | |].
  - rewrite std_sort_perm, snd_zip; [done|].
    rewrite Hl, length_imap. lia.
  - simpl. by rewrite std_sort_perm.
  - rewrite Hl. apply Forall2_imap_same. intros k f. by destruct f.
Qed.

(** Seeds. *)
Lemma seeded_mono (front : nat) (visited visited' : list bool)
    (region : list nat) :
  (∀ c, visited !! c = Some true → visited' !! c = Some true) →
  seeded nhood4 this front visited region →
  seeded nhood4 this front visited' region.
Proof.
  intros Hm (seed & rest & idx & -> & Hin & Hidx).
  exists seed, rest, idx. split_and!; [done|done|].
  destruct Hidx as [->|Hv]; [by left|right; by apply Hm].
Qed.

Lemma search_seeded_run (pos : nat) :
  search_seeded nhood4 this (start pos) (traversal pos).
Proof.
  unfold search_run. set (front := start pos).
  apply (search_loop_invariant nhood4 nhood8 this pos
           (search_seeded nhood4 this front)
           (λ idx _ st,
              search_seeded nhood4 this front st ∧
              (idx = front ∨ search.visited_flag st !! idx = Some true))).
  - intros st idx rest E [Hq Hm]. split; [split; [|done]|].
    + intros c Hc. apply Hq. unfold search_pop in Hc. simpl in Hc.
      rewrite E in Hc |- *. by right.
    + apply Hq. rewrite E. by left.
  - intros idx _ st nbr Hnbr [[Hq Hm] Hidx].
    destruct (search_visit_full nhood4 nhood8 this pos idx st nbr)
      as [(vn & vi & _ & _ & _ & Hv & ->)
         |[[_ [[_ ->]|[_ ->]]]|[_ ->]]]; try done.
    + assert (Hk : ∀ c, search.visited_flag st !! c = Some true →
                <[nbr := true]> (search.visited_flag st) !! c = Some true)
        by (intros c; apply insert_true_keeps).
      split; [split|]; simpl.
      * intros c [Hc| ->%list_elem_of_singleton]%elem_of_app.
        { destruct (Hq c Hc) as [|Hc']; [by left|right; by apply Hk]. }
        right. apply list_lookup_insert_eq. by eapply lookup_lt_Some.
      * eapply Forall_impl; [done|]. intros r. by apply seeded_mono.
      * destruct Hidx as [|Hi]; [by left|right; by apply Hk].
    + split; [split; [done|]|done]. simpl.
      apply Forall_app. split; [done|]. constructor; [|constructor].
      by eexists nbr, _, idx.
  - by intros idx st [H _].
  - split; [|constructor]. simpl.
    intros c ->%list_elem_of_singleton. by left.
Qed.

(** X14: every frontier that [searchFrom] returns starts next to the
    traversal: its first member cell lies in the 4-connected neighbourhood
    of the cell the traversal started from or of a cell it visited. *)
Theorem frontiers_touch_traversal (position : Point) (p : Process)
    (mx my : nat) :
  worldToMap (costmap_ this) (geometry_msgs.x position)
    (geometry_msgs.y position) = Some (mx, my) →
  let pos := getIndex (costmap_ this) mx my in
  Forall (λ r, seeded nhood4 this (start pos)
                 (search.visited_flag (traversal pos)) r.2)
    (search_members position p).
Proof.
  intros E. cbn zeta.
  destruct (searchFrom_regions position p)
    as [[E' _]|(mx' & my' & l & E' & Hm & _)]; [congruence|].
  rewrite E in E'. injection E' as <- <-.
  destruct (search_seeded_run (getIndex (costmap_ this) mx my)) as [_ Hs].
  rewrite <- Hm, Forall_fmap in Hs. exact Hs.
Qed.

(** Sizes and member cells. *)
Lemma search_sized_run (pos : nat) :
  search_sized nhood4 this (traversal pos).
Proof.
  unfold search_run.
  apply (search_loop_invariant nhood4 nhood8 this pos
           (search_sized nhood4 this)
           (λ _ _ st, search_sized nhood4 this st)); try done.
  - intros idx _ st nbr _ (Hlen & Hsz & Hfc).
    destruct (search_visit_full nhood4 nhood8 this pos idx st nbr)
      as [(vn & vi & _ & _ & _ & Hv & ->)|[[E Hb]|[_ ->]]]; try done.
    set (flagged := <[nbr := true]> (search.frontier_flag st)) in *.
    assert (Hl : length (build.frontier_flag (run nbr pos flagged))
                 = getSizeInCellsX (costmap_ this)
                   * getSizeInCellsY (costmap_ this)).
    { rewrite (build_flags_run nhood4 nhood8 this), set_flags_length.
      unfold flagged. by rewrite length_insert. }
    simpl in Hb. destruct Hb as [[_ ->]|[_ ->]]; [|done].
    split_and!; simpl; [done| |].
    + apply Forall2_app; [done|]. constructor; [|constructor]. simpl.
      by destruct (build_inv_run nhood4 nhood8 this nbr pos flagged)
        as (_ & _ & _ & _ & _ & -> & _).
    + apply Forall_app. split; [done|]. constructor; [|constructor].
      constructor; [|apply build_cells_run].
      by apply (isNew_spec nhood4 this) in E as [? _].
  - unfold search_sized. simpl. rewrite length_replicate.
    split_and!; [done|constructor|constructor].
Qed.

(** X6: every member cell of every frontier that [searchFrom] returns, the
    initial cell and the cells of the points, is a frontier cell of the map:
    it is unknown and has a free cell in its 4-connected neighbourhood. *)
Theorem members_are_frontier_cells (position : Point) (p : Process) :
  Forall (λ r, Forall (frontier_cell nhood4 this) r.2)
    (search_members position p).
Proof.
  destruct (searchFrom_regions position p)
    as [(_ & -> & _)|(mx & my & l & _ & Hm & _)]; [constructor|].
  destruct (search_sized_run (getIndex (costmap_ this) mx my))
    as (_ & _ & Hfc).
  rewrite <- Hm, Forall_fmap in Hfc. exact Hfc.
Qed.

(** X12: the counters of the frontiers that [searchFrom] returns add up to
    at most the number of cells of the grid. *)
Theorem sizes_within_grid (position : Point) (p : Process) :
  sum_list (size <$> fst (search position p))
  ≤ getSizeInCellsX (costmap_ this) * getSizeInCellsY (costmap_ this).
Proof.
  destruct (searchFrom_regions position p)
    as [(_ & _ & ->)|(mx & my & l & _ & _ & -> & Hl)]; [simpl; lia|].
  set (st := traversal (getIndex (costmap_ this) mx my)) in *.
  destruct (search_sized_run (getIndex (costmap_ this) mx my))
    as (Hlen & Hsz & _).
  destruct (search_inv_run nhood4 nhood8 nearestCell this
              (getIndex (costmap_ this) mx my)) as (Hnd & Hflag & _).
  fold st in Hlen, Hsz, Hnd, Hflag.
  assert (size <$> l = length <$> search.members st) as ->.
  { clear Hnd Hflag. revert l Hl.
    induction Hsz as [|f r fs rs Hfr _ IH]; intros l Hl.
    - by apply Forall2_nil_inv_l in Hl as ->.
    - apply Forall2_cons_inv_l in Hl as (g & l' & -> & Hl' & ->).
      csimpl. by rewrite Hfr, (IH l'). }
  rewrite <- sum_list_concat, <- Hlen. apply NoDup_below; [done|].
  apply Forall_forall. intros c Hc. eapply lookup_lt_Some. by apply Hflag.
Qed.
End RegionsOfSearch.

(** *** Maps without a frontier *)

Section EmptySearch.
Context (nhood4 nhood8 : nat → Costmap2D → list nat)
  (nearestCell : nat → Z → Costmap2D → option nat)
  (random_device : nat → Z)
  (normal_distribution : float → float → Z → float) (this : FrontierSearch).

Local Abbreviation search :=
  (searchFrom nhood4 nhood8 nearestCell random_device normal_distribution this).

(** Without a frontier cell on the map the outward loop retains nothing. *)
Lemma search_run_retains_nothing (pos : nat) :
  (∀ c, ¬ frontier_cell nhood4 this c) →
  search.frontier_list (search_run nhood4 nhood8 nearestCell this pos) = [].
Proof.
  intros Hno. unfold search_run.
  apply (search_loop_invariant nhood4 nhood8 this pos
           (λ st, search.frontier_list st = [])
           (λ _ _ st, search.frontier_list st = [])); try done.
  intros idx _ st nbr _ H.
  destruct (search_visit_full nhood4 nhood8 this pos idx st nbr)
    as [(vn & vi & _ & _ & _ & _ & ->)|[[E _]|[_ ->]]]; try done.
  apply (isNew_spec nhood4 this) in E as [E _]. by apply Hno in E.
Qed.

(** X9: on a map that holds no unknown cell, or no free cell, [searchFrom]
    returns the empty list. *)
Theorem no_frontier_on_settled_map (position : Point) (p : Process) :
  NO_INFORMATION ∉ map_ this ∨ FREE_SPACE ∉ map_ this →
  fst (search position p) = [].
Proof.
  intros Hmap.
  assert (Hno : ∀ c, ¬ frontier_cell nhood4 this c).
  { intros c [Hc (nbr & _ & Hn)].
    apply list_elem_of_lookup_2 in Hc, Hn. by destruct Hmap. }
  destruct (searchFrom_regions nhood4 nhood8 nearestCell random_device
              normal_distribution this position p)
    as [(_ & _ & ->)|(mx & my & l & _ & _ & Hl & Hr)]; [done|].
  rewrite (search_run_retains_nothing _ Hno) in Hr.
  apply Forall2_nil_inv_l in Hr as ->. by apply Permutation_nil_r in Hl.
Qed.
End EmptySearch.

(** *** The process across calls *)

Section ProcessFacts.
Context (nhood4 nhood8 : nat → Costmap2D → list nat)
  (nearestCell : nat → Z → Costmap2D → option nat)
  (random_device : nat → Z)
  (normal_distribution : float → float → Z → float) (this : FrontierSearch).

Local Abbreviation search :=
  (searchFrom nhood4 nhood8 nearestCell random_device normal_distribution this).
Local Abbreviation scores :=
  (set_costs random_device normal_distribution this).

(** The list that [searchFrom] returns is as long as the list it scores. *)
Lemma set_costs_length (position : Point) (l : list Frontier) (p : Process) :
  length (fst (scores position l p)) = length l.
Proof.
  destruct (set_costs_spec random_device normal_distribution this position
              l p) as [-> _].
  apply length_imap.
Qed.

(** X10: [searchFrom] writes the two statics only while it scores: a call
    that returns no frontier leaves the weight and the latch as they were,
    wherever the robot stands; a call that returns a frontier leaves them
    as one update for the position of the robot sets them. *)
Theorem statics_after_search (position : Point) (p : Process) :
  let after := bias_update position (robot_human position) p in
  weight (snd (search position p))
  = match fst (search position p) with
    | [] => weight p
    | _ => weight after
    end ∧
  flag (snd (search position p))
  = match fst (search position p) with
    | [] => flag p
    | _ => flag after
    end.
Proof.
  cbn zeta.
  destruct (worldToMap (costmap_ this) (geometry_msgs.x position)
              (geometry_msgs.y position)) as [[mx my]|] eqn:E.
  2: { unfold searchFrom. by rewrite E. }
  destruct (searchFrom_inside nhood4 nhood8 nearestCell random_device
              normal_distribution this position p mx my E)
    as (p1 & Hw & Hf & _ & ->).
  set (l := search.frontier_list _).
  pose proof (set_costs_length position l p1) as Hlen.
  destruct (set_costs_spec random_device normal_distribution this position
              l p1) as (_ & _ & Hw' & Hf').
  cbn [fst snd]. rewrite Hw', Hf'.
  pose proof (Permutation_length
                (std_sort_perm by_cost (fst (scores position l p1)))) as Hs.
  rewrite Hlen in Hs.
  rewrite !bias_update_weight, !bias_update_flag, Hw, Hf.
  destruct l, (std_sort by_cost _); simpl in Hs; try done.
Qed.

(** What one update keeps, every call keeps. *)
Lemma searchFrom_statics (P : float → bool → Prop) :
  (∀ pose d p, P (weight p) (flag p) →
     P (weight (bias_update pose d p)) (flag (bias_update pose d p))) →
  ∀ position p, P (weight p) (flag p) →
    P (weight (snd (search position p))) (flag (snd (search position p))).
Proof.
  intros HP position p Hp.
  destruct (worldToMap (costmap_ this) (geometry_msgs.x position)
              (geometry_msgs.y position)) as [[mx my]|] eqn:E.
  2: { unfold searchFrom. by rewrite E. }
  destruct (searchFrom_inside nhood4 nhood8 nearestCell random_device
              normal_distribution this position p mx my E)
    as (p1 & Hw & Hf & _ & ->).
  set (l := search.frontier_list _).
  destruct (set_costs_spec random_device normal_distribution this position
              l p1) as (_ & _ & Hw' & Hf').
  cbn [snd]. rewrite Hw', Hf'.
  destruct l; [by rewrite Hw, Hf|]. apply HP. by rewrite Hw, Hf.
Qed.

(** The console. *)
Lemma set_costs_console (position : Point) (l : list Frontier) (p : Process) :
  console (snd (scores position l p))
  = console p ++
    (if (robot_human position <? 3)%float
     then concat (replicate (length l) (near_lines position)) else []).
Proof.
  revert p. induction l as [|f l IH]; intros p.
  { simpl. by destruct (_ <? _)%float; rewrite app_nil_r. }
  cbn [set_costs].
  destruct (frontierCost random_device normal_distribution this f position p)
    as [c p1] eqn:Ec.
  assert (console p1
          = console p ++
            (if (robot_human position <? 3)%float
             then near_lines position else [])) as Hc.
  { apply (f_equal snd) in Ec. simpl in Ec. subst p1. cbn [console].
    unfold bias_update. fold (robot_human position).
    destruct (robot_human position <? 3)%float; [done|].
    rewrite app_nil_r. by destruct (_ && _). }
  specialize (IH p1). destruct (scores position l p1) as [l' p2].
  simpl in *. rewrite IH, Hc.
  destruct (robot_human position <? 3)%float; [|by rewrite !app_nil_r].
  by rewrite <- (assoc_L (++)).
Qed.

(** X13: what a call of [searchFrom] prints.  Outside the costmap, the
    error and nothing else.  Otherwise the warning when no clear cell was
    found, then, only if the robot is less than 3 away from the point to
    avoid, the two lines of [frontierCost] once for every frontier
    returned. *)
Theorem console_after_search (position : Point) (p : Process) :
  console (snd (search position p))
  = console p ++
    match worldToMap (costmap_ this) (geometry_msgs.x position)
            (geometry_msgs.y position) with
    | None =>
        [ROS_ERROR "Robot out of costmap bounds, cannot search for frontiers"]
    | Some (mx, my) =>
        (if snd (search_start nearestCell this (getIndex (costmap_ this) mx my))
         then [ROS_WARN "Could not find nearby clear cell to start search"]
         else []) ++
        (if (robot_human position <? 3)%float
         then concat (replicate (length (fst (search position p)))
                        (near_lines position))
         else [])
    end.
Proof.
  unfold searchFrom.
  destruct (worldToMap (costmap_ this) (geometry_msgs.x position)
              (geometry_msgs.y position)) as [[mx my]|] eqn:E; [|done].
  set (l := search.frontier_list _).
  set (p1 := if snd (search_start _ _ _) then _ else p).
  pose proof (set_costs_console position l p1) as Hc.
  pose proof (set_costs_length position l p1) as Hlen.
  destruct (scores position l p1) as [l' p2]. cbn [fst snd] in *.
  rewrite Hc, (Permutation_length (std_sort_perm by_cost l')), Hlen.
  subst p1. destruct (snd (search_start _ _ _)); cbn [console].
  - by rewrite <- (assoc_L (++)).
  - done.
Qed.
End ProcessFacts.

(** X11: the weight is 0 or 3, and it is 3 only under a closed latch, when
    the process starts; one call of [searchFrom], on any object with any
    costmap, from any position and in any process, keeps that, and keeps a
    closed latch closed; and so does any sequence of calls, each on an
    object and a costmap of its own. *)
Theorem weight_is_two_valued (nhood4 nhood8 : nat → Costmap2D → list nat)
    (nearestCell : nat → Z → Costmap2D → option nat)
    (random_device : nat → Z)
    (normal_distribution : float → float → Z → float) :
  two_valued Process_start ∧
  (∀ this position p, two_valued p →
     two_valued
       (snd (searchFrom nhood4 nhood8 nearestCell random_device
               normal_distribution this position p))) ∧
  (∀ this position p, flag p = true →
     flag (snd (searchFrom nhood4 nhood8 nearestCell random_device
                  normal_distribution this position p)) = true) ∧
  (∀ steps p, two_valued p →
     two_valued
       (calls nhood4 nhood8 nearestCell random_device normal_distribution
          steps p)) ∧
  (∀ steps p, flag p = true →
     flag (calls nhood4 nhood8 nearestCell random_device normal_distribution
             steps p) = true).
Proof.
  assert (∀ this position p, two_valued p →
            two_valued
              (snd (searchFrom nhood4 nhood8 nearestCell random_device
                      normal_distribution this position p))) as Hone.
  { intros this position p Hp.
    apply (searchFrom_statics nhood4 nhood8 nearestCell random_device
             normal_distribution this
             (λ w f, (w = 0%float ∨ w = 3%float) ∧ (f = false → w = 0%float)));
      [|done].
    intros pose d q [Hv Hz]. rewrite bias_update_weight, bias_update_flag.
    destruct (d <? 3)%float; [split; [by left|done]|].
    destruct (d <? 6)%float, (flag q); simpl; try done.
    split; [by right|done]. }
  assert (∀ this position p, flag p = true →
            flag (snd (searchFrom nhood4 nhood8 nearestCell random_device
                         normal_distribution this position p)) = true)
    as Hlatch.
  { intros this position p Hp.
    apply (searchFrom_statics nhood4 nhood8 nearestCell random_device
             normal_distribution this (λ _ f, f = true)); [|done].
    intros pose d q Hq. rewrite bias_update_flag, Hq.
    by destruct (d <? 3)%float, (d <? 6)%float. }
  split_and!; [split; [by left|done]|done|done| |].
  - unfold calls. intros steps.
    induction steps as [|[this position] steps IH]; intros p Hp; [done|].
    cbn [foldl]. apply IH, Hone, Hp.
  - unfold calls. intros steps.
    induction steps as [|[this position] steps IH]; intros p Hp; [done|].
    cbn [foldl]. apply IH, Hlatch, Hp.
Qed.


(** *** Instances on the concrete grid, continued *)

Lemma region_is_connected_strips :
  let cells :=
    build.cells (build_run grid_nhood4 grid_nhood8 strips_explorer 22 12
                   (<[22 := true]> (replicate 25 false))) in
  cells !! 1 = Some 23 ∧
  ∃ d, d ∈ 22 :: take 1 cells ∧
       23 ∈ grid_nhood8 d (costmap_ strips_explorer).
Proof.
  split; [vm_compute; reflexivity|].
  apply (region_is_connected grid_nhood4 grid_nhood8 strips_explorer 22 12
           (<[22 := true]> (replicate 25 false)) 1 23).
  vm_compute. reflexivity.
Defined.

Lemma traversal_descends_corner :
  let this := explorer 3 3 corner_map 1 1 1 in
  let st := search_run grid_nhood4 grid_nhood8 grid_nearestCell this 2 in
  search.visited_flag st !! 8 = Some true ∧
  map_ this !! 8 = Some 0%Z ∧
  map_ this !! (search_start grid_nearestCell this 2).1 = Some 0%Z ∧
  (0 ≤ 0)%Z.
Proof.
  split; [vm_compute; reflexivity|].
  split; [vm_compute; reflexivity|].
  split; [vm_compute; reflexivity|].
  apply (traversal_descends grid_nhood4 grid_nhood8 grid_nearestCell
           (explorer 3 3 corner_map 1 1 1) 2 8 0 0);
    vm_compute; reflexivity.
Defined.

Lemma detection_is_complete_strips :
  let st :=
    search_run grid_nhood4 grid_nhood8 grid_nearestCell strips_explorer 12 in
  search.visited_flag st !! 7 = Some true ∧
  map_ strips_explorer !! 7 = Some 0%Z ∧
  (0 < NO_INFORMATION)%Z ∧
  grid_nhood4 7 (costmap_ strips_explorer) = [6; 8; 2; 12] ∧
  Forall (λ nbr, isNewFrontierCell grid_nhood4 strips_explorer nbr
                   (search.frontier_flag st) = false)
    (grid_nhood4 7 (costmap_ strips_explorer)).
Proof.
  split; [vm_compute; reflexivity|].
  split; [vm_compute; reflexivity|].
  split; [vm_compute; reflexivity|].
  split; [vm_compute; reflexivity|].
  apply (detection_is_complete grid_nhood4 grid_nhood8 grid_nearestCell
           strips_explorer 12 7 0);
    vm_compute; reflexivity.
Defined.

Lemma frontiers_touch_traversal_strips :
  let this := strips_explorer in
  let st := search_run grid_nhood4 grid_nhood8 grid_nearestCell this 12 in
  worldToMap (costmap_ this) (geometry_msgs.x centre5)
    (geometry_msgs.y centre5) = Some (2, 2) ∧
  Forall (λ r, seeded grid_nhood4 this
                 (search_start grid_nearestCell this 12).1
                 (search.visited_flag st) r.2)
    (searchFrom_members grid_nhood4 grid_nhood8 grid_nearestCell fixed_device
       (fixed_noise 0) this centre5 Process_start).
Proof.
  split; [vm_compute; reflexivity|].
  apply (frontiers_touch_traversal grid_nhood4 grid_nhood8 grid_nearestCell
           fixed_device (fixed_noise 0) strips_explorer centre5 Process_start
           2 2).
  vm_compute. reflexivity.
Defined.

Lemma no_frontier_on_free_map :
  let this := explorer 3 3 free_map 1 1 1 in
  (NO_INFORMATION ∉ map_ this ∨ FREE_SPACE ∉ map_ this) ∧
  fst (explore this 0 centre3 Process_start) = [].
Proof.
  assert (NO_INFORMATION ∉ map_ (explorer 3 3 free_map 1 1 1)) as H.
  { intros H. vm_compute in H.
    repeat (apply elem_of_cons in H as [H|H]; [discriminate|]).
    by apply elem_of_nil in H. }
  split; [by left|].
  apply (no_frontier_on_settled_map grid_nhood4 grid_nhood8 grid_nearestCell
           fixed_device (fixed_noise 0) (explorer 3 3 free_map 1 1 1)).
  by left.
Defined.

(** A call with the robot next to the point to avoid: two frontiers are
    scored, the weight is forced to 0 under an open latch, and the two
    lines are printed twice.  The same call from a process that is latched
    at weight 3 also ends at weight 0. *)
Lemma search_near_human :
  let position := geometry_msgs.mkPoint (-2.5) (-5.5) 0 in
  let result :=
    searchFrom grid_nhood4 grid_nhood8 grid_nearestCell fixed_device
      (fixed_noise 0) strips_near_human position in
  (robot_human position <? 3)%float = true ∧
  length (fst (result Process_start)) = 2 ∧
  snd (result Process_start)
  = mkProcess 0 false 2 (near_lines position ++ near_lines position) ∧
  weight (snd (result (mkProcess 3 true 0 []))) = 0%float.
Proof. split_and!; vm_compute; reflexivity. Qed.

(** The closure, the frame and the member cells of the upper region of the
    grid with two strips. *)
Lemma upper_region_of_strips :
  let flags := <[22 := true]> (replicate 25 false) in
  let b := build_run grid_nhood4 grid_nhood8 strips_explorer 22 12 flags in
  build.cells b = [21; 23] ∧
  snd (buildNewFrontier grid_nhood4 grid_nhood8 strips_explorer 22 12 flags)
  = <[23 := true]> (<[21 := true]> flags) ∧
  grid_nhood8 22 (costmap_ strips_explorer) = [21; 23; 17; 16; 18].
Proof. split_and!; vm_compute; reflexivity. Qed.
